(** * Govee H5055 monitor: reading store, CSV snapshots and the run loop

    A shallow embedding of [src/govee_thermometer/main.py].

    - Temperatures are Python floats: binary64 values, here [PrimFloat.float].
    - Probe ids are Python ints: [Z].
    - A stored reading is whatever the update methods are handed as [temp]:
      a float or [None], here [option float].
    - [temp_data] is a Python dict of dicts.  The outer dict is iterated in
      insertion order when rows are written, so it is an association list
      that keeps the position of a key once inserted.  The inner dicts are
      only read through [sorted(...)] or poured into a set, so their order
      is not observable and they are [gmap Z (option float)].
    - The scanner and the protocol decoder are external: a scan is given by
      what it delivered (the advertisements, each with the calls the decoder
      made on the parser) and by whether the scanner raised. *)

From Stdlib Require Import ZArith QArith Qround String Ascii List Lia.
From Stdlib Require Import Floats.PrimFloat Floats.FloatOps Floats.SpecFloat.
From Stdlib Require Import DecimalString DecimalZ.
From stdpp Require Import gmap strings list sorting.

Set Warnings "-inexact-float".
Open Scope Z_scope.

(** ** Insertion-ordered dictionaries with string keys *)

Module Dict.
Section dict.
Context {V : Type}.

(** [d.get(k)] *)
Fixpoint get (k : string) (d : list (string * V)) : option V :=
  match d with
  | [] => None
  | (k', v) :: d' => if decide (k = k') then Some v else get k d'
  end.

(** [k in d] *)
Definition mem (k : string) (d : list (string * V)) : bool :=
  match get k d with Some _ => true | None => false end.

(** [d[k] = v]: an existing key keeps its position, a new key goes last. *)
Fixpoint set (k : string) (v : V) (d : list (string * V)) : list (string * V) :=
  match d with
  | [] => [(k, v)]
  | (k', v') :: d' =>
      if decide (k = k') then (k, v) :: d' else (k', v') :: set k v d'
  end.

Definition values (d : list (string * V)) : list V := d.*2.

End dict.
End Dict.

(** ** The reading store *)

(** [temp_data: Dict[str, Dict[int, float]]]; at run time a value is the
    [temp] an update method received, a float or [None]. *)
Abbreviation store := (list (string * gmap Z (option float))).

(** [temp_data[device][probe]], when both keys are present; [Some None] is
    a stored [None]. *)
Definition reading (device : string) (probe_id : Z) (temp_data : store)
  : option (option float) :=
  Dict.get device temp_data ≫= (.!! probe_id).

(** The first statement shared by both update methods:
    [if self.device_address not in temp_data: temp_data[self.device_address] = {}] *)
Definition ensure_device (device_address : string) (temp_data : store) : store :=
  if Dict.mem device_address temp_data then temp_data
  else Dict.set device_address ∅ temp_data.

(** [temp_data[self.device_address][probe_id] = temp]: the inner dict of the
    device is updated in place. *)
Definition store_probe (device_address : string) (probe_id : Z)
    (temp : option float) (temp_data : store) : store :=
  match Dict.get device_address temp_data with
  | Some probes =>
      Dict.set device_address (<[probe_id := temp]> probes) temp_data
  | None => temp_data
  end.

(** [TemperatureCapturingParser.update_temp_probe]; the method of the base
    class it calls first only records the reading on the parser object. *)
Definition update_temp_probe (device_address : string) (temp : option float)
    (probe_id : Z) (temp_data : store) : store :=
  let temp_data := ensure_device device_address temp_data in
  store_probe device_address probe_id temp temp_data.

(** [temp is not None and temp > 0] *)
Definition temp_is_positive (temp : option float) : bool :=
  match temp with
  | Some t => PrimFloat.ltb 0 t
  | None => false
  end.

(** [TemperatureCapturingParser.update_temp_probe_with_alarm].  Its first
    statement calls the method of the base class,
    [GoveeBluetoothDeviceData.update_temp_probe_with_alarm], which records
    the alarm thresholds on the parser object and calls
    [self.update_temp_probe(temp, probe_id)]: on a
    [TemperatureCapturingParser] that is the override above, so [temp] is
    stored, whatever it is, before the guard of the method is reached. *)
Definition update_temp_probe_with_alarm (device_address : string)
    (temp : option float) (alarm_temp : option float) (probe_id : Z)
    (low_alarm_temp : option float) (temp_data : store) : store :=
  let temp_data := update_temp_probe device_address temp probe_id temp_data in
  let temp_data := ensure_device device_address temp_data in
  match temp with
  | Some t =>
      if PrimFloat.ltb 0 t
      then store_probe device_address probe_id (Some t) temp_data
      else temp_data
  | None => temp_data
  end.

(** The calls the decoder makes on a parser while it decodes one
    advertisement. *)
Inductive probe_update :=
  | TempProbe (temp : float) (probe_id : Z)
  | TempProbeWithAlarm (temp alarm_temp : option float) (probe_id : Z)
      (low_alarm_temp : option float).

Definition apply_update (device_address : string) (u : probe_update)
    (temp_data : store) : store :=
  match u with
  | TempProbe temp probe_id =>
      update_temp_probe device_address (Some temp) probe_id temp_data
  | TempProbeWithAlarm temp alarm_temp probe_id low_alarm_temp =>
      update_temp_probe_with_alarm device_address temp alarm_temp probe_id
        low_alarm_temp temp_data
  end.

(** A sequence of decoded updates, each with the address of the parser that
    received it, applied in arrival order. *)
Definition apply_updates (us : list (string * probe_update))
    (temp_data : store) : store :=
  foldl (λ td du, apply_update du.1 du.2 td) temp_data us.

(** *** What the store holds after a sequence of updates *)

(** The temperatures reported for one (device, probe) pair, in order, and
    the last of them. *)
Definition reported_for (device : string) (probe_id : Z)
    (us : list (string * probe_update)) : list (option float) :=
  omap (λ du : string * probe_update,
          match du.2 with
          | TempProbe temp p =>
              if bool_decide (du.1 = device ∧ p = probe_id)
              then Some (Some temp) else None
          | TempProbeWithAlarm temp _ p _ =>
              if bool_decide (du.1 = device ∧ p = probe_id)
              then Some temp else None
          end) us.

Definition last_reported (device : string) (probe_id : Z)
    (us : list (string * probe_update)) : option (option float) :=
  last (reported_for device probe_id us).

(** *** The update rule in the words of the specification *)

Definition update_probe (u : probe_update) : Z :=
  match u with
  | TempProbe _ probe_id => probe_id
  | TempProbeWithAlarm _ _ probe_id _ => probe_id
  end.

(** The temperature an update reports. *)
Definition update_temp (u : probe_update) : option float :=
  match u with
  | TempProbe temp _ => Some temp
  | TempProbeWithAlarm temp _ _ _ => temp
  end.

(** A plain update is always accepted; an alarm-bearing one only with a
    non-null temperature strictly above zero. *)
Definition accepted (u : probe_update) : bool :=
  match u with
  | TempProbe _ _ => true
  | TempProbeWithAlarm temp _ _ _ => temp_is_positive temp
  end.

(** The value an update leaves in the store, if it is accepted. *)
Definition accepted_value (u : probe_update) : option float :=
  if accepted u then update_temp u else None.

(** The values of the accepted updates for one (device, probe) pair, in
    order, and the last of them. *)
Definition accepted_for (device : string) (probe_id : Z)
    (us : list (string * probe_update)) : list float :=
  omap (λ du : string * probe_update,
          if bool_decide (du.1 = device ∧ update_probe du.2 = probe_id)
          then accepted_value du.2 else None) us.

Definition last_accepted (device : string) (probe_id : Z)
    (us : list (string * probe_update)) : option float :=
  last (accepted_for device probe_id us).


(** Every stored value is a float strictly above zero: the invariant the
    data model words for [temp_data]. *)
Definition positive_store (temp_data : store) : Prop :=
  ∀ device probe_id v,
    reading device probe_id temp_data = Some v → temp_is_positive v = true.

(** ** Python formatting *)

(** [str(n)] for an int. *)
Definition str_of_int (n : Z) : string := NilZero.string_of_int (Z.to_int n).

(** Left padding with ['0'] up to [width] characters. *)
Definition zero_pad (width : nat) (digits : string) : string :=
  String.concat "" (replicate (width - String.length digits)%nat "0")
  +:+ digits.

(** [f"{n:02d}"]: at least two characters, zeros between the sign and the
    digits. *)
Definition format_02d (n : Z) : string :=
  if n <? 0 then "-" +:+ zero_pad 1 (str_of_int (- n))
  else zero_pad 2 (str_of_int n).

(** Floats that hold durations are taken at their exact rational value; the
    operations below are the exact ones.  For [0 <= x < 2^53] and the
    divisors 3600 and 60 the binary64 results of [//] and [%] are exact
    ([fmod] is exact and the quotient is an integer below [2^53]), so this
    is what Python computes on every duration a [datetime] difference can
    give. *)

(** [x // y] for a positive [y] *)
Definition float_floordiv (x y : Q) : Q := inject_Z (Qfloor (x / y)).

(** [x % y] for a positive [y] *)
Definition float_mod (x y : Q) : Q := (x - y * float_floordiv x y)%Q.

(** [int(x)]: truncation towards zero *)
Definition py_int (x : Q) : Z :=
  if Qle_bool 0 x then Qfloor x else Qceiling x.

(** The body of [format_elapsed_time] after its first line, as a function of
    [elapsed_seconds]. *)
Definition format_elapsed_seconds (elapsed_seconds : Q) : string :=
  let elapsed_hours := py_int (float_floordiv elapsed_seconds 3600) in
  let elapsed_minutes :=
    py_int (float_floordiv (float_mod elapsed_seconds 3600) 60) in
  let display_seconds := py_int (float_mod elapsed_seconds 60) in
  str_of_int elapsed_hours +:+ ":" +:+ format_02d elapsed_minutes
  +:+ ":" +:+ format_02d display_seconds.

(** Rounding of the non-negative fraction [num / den] to the nearest
    integer, ties to even. *)
Definition round_half_even (num den : Z) : Z :=
  let q := num / den in
  match 2 * (num mod den) ?= den with
  | Lt => q
  | Gt => q + 1
  | Eq => if Z.even q then q else q + 1
  end.

(** [n / d] for Python ints with [d > 0]: the quotient correctly rounded to
    binary64, ties to even, at its exact rational value.  A quotient that is
    not zero is [m * 2^e] with [2^52 <= m <= 2^53]; overflow and subnormal
    results do not arise for differences of [datetime]s over [10**6]. *)
Definition int_true_divide (n d : Z) : Q :=
  if n =? 0 then 0%Q
  else
    let a := Z.abs n in
    let s := Z.log2 a - Z.log2 d in
    let at_least_2s :=
      if 0 <=? s then d * 2 ^ s <=? a else d <=? a * 2 ^ (- s) in
    let e := if at_least_2s then s - 52 else s - 53 in
    let m :=
      if 0 <=? e then round_half_even a (d * 2 ^ e)
      else round_half_even (a * 2 ^ (- e)) d in
    let value :=
      if 0 <=? e then inject_Z (m * 2 ^ e)
      else Qmake m (Z.to_pos (2 ^ (- e))) in
    if n <? 0 then Qopp value else value.

(** A [datetime] is a count of microseconds; [(a - b).total_seconds()] is
    the difference, an int, divided by [10**6]. *)
Definition total_seconds (now start_time : Z) : Q :=
  int_true_divide (now - start_time) 1000000.

(** [format_elapsed_time(start_time)], given what [datetime.datetime.now()]
    returns. *)
Definition format_elapsed_time (now start_time : Z) : string :=
  format_elapsed_seconds (total_seconds now start_time).

(** The [H:MM:SS] layout in the words of the specification: hours as a plain
    decimal, minutes and seconds as exactly two decimal digits. *)
Definition digit_char (d : Z) : ascii := ascii_of_nat (48 + Z.to_nat d).

Definition two_digits (n : Z) : string :=
  String (digit_char (n / 10)) (String (digit_char (n mod 10)) EmptyString).

Definition h_mm_ss (whole_seconds : Z) : string :=
  str_of_int (whole_seconds / 3600) +:+ ":"
  +:+ two_digits (whole_seconds / 60 mod 60) +:+ ":"
  +:+ two_digits (whole_seconds mod 60).

(** [f"{temp:.1f}"]: the exact binary value of the float, correctly rounded
    to one decimal. *)
Definition format_1f (temp : float) : string :=
  match Prim2SF temp with
  | S754_nan => "nan"
  | S754_infinity s => if s then "-inf" else "inf"
  | S754_zero s => if s then "-0.0" else "0.0"
  | S754_finite s m e =>
      let tenths :=
        if 0 <=? e then Zpos m * 2 ^ e * 10
        else round_half_even (Zpos m * 10) (2 ^ (- e)) in
      (if s then "-" else "") +:+ str_of_int (tenths / 10) +:+ "."
      +:+ str_of_int (tenths mod 10)
  end.

(** ** Exceptions, the global state and the monad threading both *)

(** [KeyboardInterrupt] derives from [BaseException] only, so
    [except Exception] does not catch it. *)
Inductive exn :=
  | Exception (msg : string)
  | KeyboardInterrupt.

Inductive outcome (A : Type) :=
  | Returns (a : A)
  | Raises (e : exn).
Arguments Returns {A} a.
Arguments Raises {A} e.

(** A line of the CSV file, by the writer call that produced it; the cells
    stand for the delimited text. *)
Inductive csv_line :=
  | HeaderLine (fieldnames : list string)
  | RowLine (cells : list string).

(** The module globals, the file at [csv_path] ([None] while no regular file
    is there) and the records emitted through [logger.error]. *)
Record world := World {
  temp_data : store;
  processed_devices : gset string;
  found_h5055 : bool;
  h5055_address : option string;
  monitoring_start_time : option Z;
  csv_file : option (list csv_line);
  error_log : list string;
}.

(** The state of a fresh process in which [csv_file] is the initial file. *)
Definition initial_world (file : option (list csv_line)) : world :=
  World [] ∅ false None None file [].

Definition M (A : Type) : Type := world → outcome A * world.

Definition ret {A} (a : A) : M A := λ w, (Returns a, w).
Definition raise {A} (e : exn) : M A := λ w, (Raises e, w).
Definition bind {A B} (m : M A) (k : A → M B) : M B :=
  λ w, match m w with
       | (Returns a, w') => k a w'
       | (Raises e, w') => (Raises e, w')
       end.
Definition gets {A} (f : world → A) : M A := λ w, (Returns (f w), w).
Definition modify (f : world → world) : M unit := λ w, (Returns tt, f w).

(** [try: body / except Exception as e: handler(e)] *)
Definition try_except_Exception {A} (body : M A) (handler : string → M A)
  : M A :=
  λ w, match body w with
       | (Raises (Exception msg), w') => handler msg w'
       | r => r
       end.

Declare Scope py_scope.
Delimit Scope py_scope with py.
Notation "x <- m ;; k" := (bind m (λ x, k))
  (at level 100, m at next level, right associativity) : py_scope.
Notation "m ;; k" := (bind m (λ _, k))
  (at level 100, right associativity) : py_scope.
Local Open Scope py_scope.

(** [for x in xs: body(x)] *)
Fixpoint for_each {A} (xs : list A) (body : A → M unit) : M unit :=
  match xs with
  | [] => ret tt
  | x :: xs' => body x ;; for_each xs' body
  end.

Definition set_temp_data (td : store) (w : world) : world :=
  World td (processed_devices w) (found_h5055 w) (h5055_address w)
    (monitoring_start_time w) (csv_file w) (error_log w).
Definition set_processed_devices (s : gset string) (w : world) : world :=
  World (temp_data w) s (found_h5055 w) (h5055_address w)
    (monitoring_start_time w) (csv_file w) (error_log w).
Definition set_found (address : string) (w : world) : world :=
  World (temp_data w) (processed_devices w) true (Some address)
    (monitoring_start_time w) (csv_file w) (error_log w).
Definition set_monitoring_start_time (t : Z) (w : world) : world :=
  World (temp_data w) (processed_devices w) (found_h5055 w) (h5055_address w)
    (Some t) (csv_file w) (error_log w).
Definition set_csv_file (f : list csv_line) (w : world) : world :=
  World (temp_data w) (processed_devices w) (found_h5055 w) (h5055_address w)
    (monitoring_start_time w) (Some f) (error_log w).
Definition logger_error (msg : string) : M unit :=
  modify (λ w,
    World (temp_data w) (processed_devices w) (found_h5055 w) (h5055_address w)
      (monitoring_start_time w) (csv_file w) (error_log w ++ [msg])).

(** ** Snapshot and CSV persistence *)

(** [f'probe_{probe_id}'] *)
Definition probe_column (probe_id : Z) : string := "probe_" +:+ str_of_int probe_id.

(** [sorted(probes.items())]: the keys of a dict are distinct, so the pairs
    are ordered by probe id alone. *)
Definition item_le (a b : Z * option float) : Prop := a.1 ≤ b.1.

#[global] Instance item_le_dec : RelDecision item_le.
Proof. intros a b. unfold item_le. apply _. Defined.

Definition sorted_items (probes : gmap Z (option float))
  : list (Z * option float) :=
  merge_sort item_le (map_to_list probes).

(** The message of the [TypeError] that [f"{None:.1f}"] raises. *)
Definition type_error_message : string :=
  "unsupported format string passed to NoneType.__format__".

(** [f"{temp:.1f}"] for a stored value: [None] does not take a format
    specification. *)
Definition format_temp (temp : option float) : M string :=
  match temp with
  | Some t => ret (format_1f t)
  | None => raise (Exception type_error_message)
  end.

(** The loop that prints the probes of a device.  Standard output is not
    modelled: what is kept of the loop is the exception of the first reading
    that cannot be formatted. *)
Definition print_probes (probes : gmap Z (option float)) : M unit :=
  for_each (sorted_items probes) (λ it, format_temp it.2 ;; ret tt).

(** The loop that fills [row_data], one entry per probe of the device. *)
Fixpoint fill_row_data (items : list (Z * option float))
    (row_data : gmap string string) : M (gmap string string) :=
  match items with
  | [] => ret row_data
  | it :: items' =>
      cell <- format_temp it.2 ;;
      fill_row_data items' (<[probe_column it.1 := cell]> row_data)
  end.

(** [row_data]: the two fixed entries, then the loop. *)
Definition make_row_data (t_plus device_addr : string)
    (probes : gmap Z (option float)) : M (gmap string string) :=
  fill_row_data (sorted_items probes)
    (<["device" := device_addr]> (<["t_plus" := t_plus]> ∅)).

(** [all_probe_ids]: the union of the key sets of every device's dict. *)
Definition collect_probe_ids (temp_data : store) : gset Z :=
  foldl (λ all_probe_ids dev_probes, all_probe_ids ∪ dom dev_probes)
        ∅ (Dict.values temp_data).

(** [sorted(all_probe_ids)] *)
Definition sorted_probe_ids (temp_data : store) : list Z :=
  merge_sort Z.le (elements (collect_probe_ids temp_data)).

Definition make_fieldnames (temp_data : store) : list string :=
  foldl (λ fieldnames probe_id, fieldnames ++ [probe_column probe_id])
        ["t_plus"; "device"] (sorted_probe_ids temp_data).

(** [csv.DictWriter._dict_to_list] with the default [extrasaction='raise']
    and [restval='']. *)
Definition dict_to_list (fieldnames : list string)
    (rowdict : gmap string string) : outcome (list string) :=
  let wrong_fields :=
    filter (λ k, k ∉ fieldnames) (map_to_list rowdict).*1 in
  match wrong_fields with
  | [] => Returns ((λ key, default "" (rowdict !! key)) <$> fieldnames)
  | _ :: _ =>
      Raises (Exception "dict contains fields not in fieldnames")
  end.

(** [open(csv_path, 'a')]: the file comes into being if it is missing; the
    environment may refuse with an [OSError]. *)
Definition open_append (open_error : option string) : M (list csv_line) :=
  match open_error with
  | Some msg => raise (Exception msg)
  | None =>
      f <- gets csv_file ;;
      let content := default [] f in
      modify (set_csv_file content) ;; ret content
  end.

Definition append_line (l : csv_line) : M unit :=
  modify (λ w, set_csv_file (default [] (csv_file w) ++ [l]) w).

(** The body of the loop over [temp_data.items()] for one device. *)
Definition write_device_row (open_error : option string) (t_plus : string)
    (device_addr : string) (probes : gmap Z (option float)) : M unit :=
  if decide (probes = ∅) then ret tt
  else
    print_probes probes ;;
    row_data <- make_row_data t_plus device_addr probes ;;
    file_exists <- gets (λ w, bool_decide (is_Some (csv_file w))) ;;
    fieldnames <- gets (λ w, make_fieldnames (temp_data w)) ;;
    open_append open_error ;;
    (if file_exists then ret tt else append_line (HeaderLine fieldnames)) ;;
    match dict_to_list fieldnames row_data with
    | Returns cells => append_line (RowLine cells)
    | Raises e => raise e
    end.

(** [print_temperature_readings(csv_path)].  [now] is what
    [datetime.datetime.now()] returns during the call; what goes to standard
    output is not modelled. *)
Definition print_temperature_readings (now : Z) (open_error : option string)
  : M unit :=
  td <- gets temp_data ;;
  match td with
  | [] => ret tt
  | _ :: _ =>
      start <- gets monitoring_start_time ;;
      start_time <-
        match start with
        | None => modify (set_monitoring_start_time now) ;; ret now
        | Some s => ret s
        end ;;
      let t_plus := format_elapsed_time now start_time in
      for_each td (λ '(device_addr, probes),
        write_device_row open_error t_plus device_addr probes)
  end.

(** ** Advertisements and scans *)

(** One advertisement as the callback sees it: the address of the device,
    the calls [parser._start_update] makes on the parser (in order), the
    [Exception] it raises after them, if any, and [parser.device_type]
    afterwards. *)
Record advertisement := Advertisement {
  address : string;
  decoded : list probe_update;
  decode_error : option string;
  device_type : option string;
}.

Definition process_advertisement (ad : advertisement) : M unit :=
  modify (λ w, set_temp_data
     (apply_updates ((λ u, (address ad, u)) <$> decoded ad) (temp_data w)) w) ;;
  match decode_error ad with Some msg => raise (Exception msg) | None => ret tt end ;;
  processed <- gets processed_devices ;;
  if bool_decide (device_type ad = Some "H5055")
     && bool_decide (address ad ∉ processed)
  then
    modify (set_processed_devices ({[address ad]} ∪ processed)) ;;
    modify (set_found (address ad))
  else ret tt.

(** What the scanning facility does between the creation of the scanner and
    the return of [scanner.stop()]: the advertisements it hands to the
    callback, in order, and the exception it raises, if any, either before
    any advertisement is delivered or when it is stopped. *)
Inductive scan :=
  | ScanCompletes (delivered : list advertisement)
  | ScanFailsToStart (e : exn)
  | ScanFailsToStop (delivered : list advertisement) (e : exn).

Definition scan_delivered (sc : scan) : list advertisement :=
  match sc with
  | ScanCompletes ads | ScanFailsToStop ads _ => ads
  | ScanFailsToStart _ => []
  end.

Definition scan_error (sc : scan) : option exn :=
  match sc with
  | ScanCompletes _ => None
  | ScanFailsToStart e | ScanFailsToStop _ e => Some e
  end.

Definition advertisement_error_message (ad : advertisement) (msg : string)
  : string :=
  "Error processing advertisement from " +:+ address ad +:+ ": " +:+ msg.

(** The scanner at work: the callback runs on every delivered
    advertisement, in order, then the scanner's own exception, if any, is
    raised.  [locals] are the variables of the enclosing function that the
    callback assigns ([nonlocal]). *)
Fixpoint deliver {L} (ads : list advertisement)
    (callback : L → advertisement → M L) (locals : L) : M L :=
  match ads with
  | [] => ret locals
  | ad :: ads' => l <- callback locals ad ;; deliver ads' callback l
  end.

Definition run_scanner {L} (sc : scan)
    (callback : L → advertisement → M L) (locals : L) : M L :=
  match sc with
  | ScanCompletes ads => deliver ads callback locals
  | ScanFailsToStart e => raise e
  | ScanFailsToStop ads e => deliver ads callback locals ;; raise e
  end.

(** The callback of [scan_for_devices]; the local is [found_this_scan]. *)
Definition discovery_callback (found_this_scan : bool) (ad : advertisement)
  : M bool :=
  try_except_Exception
    (process_advertisement ad ;;
     found <- gets found_h5055 ;;
     ret (if found then true else found_this_scan))
    (λ msg,
       logger_error (advertisement_error_message ad msg) ;;
       ret found_this_scan).

(** [scan_for_devices()] *)
Definition scan_for_devices (sc : scan) : M bool :=
  modify (set_processed_devices ∅) ;;
  try_except_Exception
    (found_this_scan <- run_scanner sc discovery_callback false ;;
     found <- gets found_h5055 ;;
     ret (found_this_scan || found))
    (λ msg,
       logger_error ("Error during BLE scanning: " +:+ msg) ;; ret false).

(** The callback of [scan_specific_device]: only advertisements from
    [device_address] are processed. *)
Definition monitoring_callback (device_address : option string) (_ : unit)
    (ad : advertisement) : M unit :=
  try_except_Exception
    (if bool_decide (Some (address ad) = device_address)
     then process_advertisement ad else ret tt)
    (λ msg, logger_error (advertisement_error_message ad msg)).

(** [scan_specific_device(device_address, timeout)] *)
Definition scan_specific_device (device_address : option string) (sc : scan)
  : M unit :=
  try_except_Exception
    (run_scanner sc (monitoring_callback device_address) tt)
    (λ msg, logger_error ("Error during BLE scanning: " +:+ msg)).

(** ** The main loop *)

Inductive phase :=
  | Searching
  | Monitoring
  | Stopped (exit_status : Z).

(** Where [main_loop] stands, its local [scan_count], and the globals. *)
Record run_state := RunState {
  run_phase : phase;
  scan_count : Z;
  run_world : world;
}.

(** What the environment supplies to one iteration: the behaviour of the
    scanner during the scan of the iteration, the clock, and whether the
    output file can be opened. *)
Record cycle_input := CycleInput {
  cycle_scan : scan;
  cycle_now : Z;
  cycle_open_error : option string;
}.

(** The handlers around the loops of [main_loop]: [KeyboardInterrupt] ends
    the run quietly, any other exception is logged and [sys.exit(1)]
    follows. *)
Definition main_loop_handlers (count : Z) (r : outcome phase * world)
  : run_state :=
  match r with
  | (Returns ph', w) => RunState ph' count w
  | (Raises KeyboardInterrupt, w) => RunState (Stopped 0) count w
  | (Raises (Exception msg), w) =>
      RunState (Stopped 1) count
        (snd (logger_error ("Error in main loop: " +:+ msg) w))
  end.

(** The statements between the two loops. *)
Definition enter_monitoring (now : Z) : M phase :=
  modify (set_monitoring_start_time now) ;; ret Monitoring.

(** One iteration of the loop [main_loop] is in.
    - [Searching]: the test of [while not found_h5055], then the body; both
      leaving the loop on the test and [break] lead to the statements
      between the loops.
    - [Monitoring]: the body of [while True]. *)
Definition step (st : run_state) (inp : cycle_input) : run_state :=
  match run_phase st with
  | Searching =>
      if found_h5055 (run_world st) then
        main_loop_handlers (scan_count st)
          (enter_monitoring (cycle_now inp) (run_world st))
      else
        main_loop_handlers (scan_count st + 1)
          ((found <- scan_for_devices (cycle_scan inp) ;;
            if found : bool then enter_monitoring (cycle_now inp)
            else ret Searching) (run_world st))
  | Monitoring =>
      main_loop_handlers (scan_count st)
        ((modify (set_processed_devices ∅) ;;
          address <- gets h5055_address ;;
          scan_specific_device address (cycle_scan inp) ;;
          print_temperature_readings (cycle_now inp) (cycle_open_error inp) ;;
          ret Monitoring) (run_world st))
  | Stopped _ => st
  end.

(** [main_loop] from a fresh process, for as many iterations as the
    environment is given for. *)
Definition run (inputs : list cycle_input) (st : run_state) : run_state :=
  foldl step st inputs.

Definition initial_state (file : option (list csv_line)) : run_state :=
  RunState Searching 0 (initial_world file).

(** ** A snapshot in the words of the specification *)

(** What [row_data] is once its loop has run through: the two fixed entries
    and one entry per probe of the device. *)
Definition row_data_of (t_plus device_addr : string)
    (probes : gmap Z (option float)) : gmap string string :=
  foldl (λ row_data (it : Z * option float),
           <[probe_column it.1 := from_option format_1f ""%string it.2]>
             row_data)
        (<["device" := device_addr]> (<["t_plus" := t_plus]> ∅))
        (sorted_items probes).

(** A device none of whose stored readings is [None]. *)
Definition null_free (probes : gmap Z (option float)) : Prop :=
  map_Forall (λ _ (v : option float), is_Some v) probes.

(** A store without a stored [None]. *)
Definition no_null_reading (td : store) : Prop :=
  Forall (λ dp : string * gmap Z (option float), null_free dp.2) td.

(** The devices that come before the first device with a stored [None]. *)
Fixpoint readable_prefix (l : list (string * gmap Z (option float)))
  : list (string * gmap Z (option float)) :=
  match l with
  | [] => []
  | (device_addr, probes) :: l' =>
      if decide (null_free probes)
      then (device_addr, probes) :: readable_prefix l'
      else []
  end.

(** The cells of the row of one device: the elapsed time, the address, then
    under each probe column the reading to one decimal, or nothing when the
    device has no such probe. *)
Definition row_cells (td : store) (t_plus device_addr : string)
    (probes : gmap Z (option float)) : list string :=
  [t_plus; device_addr]
  ++ ((λ p, match probes !! p with
            | Some (Some t) => format_1f t
            | _ => ""%string
            end) <$> sorted_probe_ids td).

(** One row per device of [l] that has at least one reading, in the order
    of [l]. *)
Definition device_rows (td : store) (t_plus : string)
    (l : list (string * gmap Z (option float))) : list (list string) :=
  omap (λ '(device_addr, probes),
          if decide (probes = ∅) then None
          else Some (row_cells td t_plus device_addr probes)) l.

(** The rows of a snapshot: those of the devices that come before the first
    stored [None], all of them when there is none. *)
Definition snapshot_rows (td : store) (t_plus : string) : list (list string) :=
  device_rows td t_plus (readable_prefix td).

(** How a snapshot whose file can be opened ends: with the [TypeError] of
    the first stored [None], or normally. *)
Definition snapshot_outcome (td : store) : outcome unit :=
  if decide (no_null_reading td) then Returns tt
  else Raises (Exception type_error_message).

(** Appending rows to the file: the header goes first when the file is
    missing, and nothing happens when there is no row to write. *)
Definition append_rows (file : option (list csv_line))
    (fieldnames : list string) (rows : list (list string))
  : option (list csv_line) :=
  match rows with
  | [] => file
  | _ :: _ =>
      Some (match file with
            | None => HeaderLine fieldnames :: (RowLine <$> rows)
            | Some content => content ++ (RowLine <$> rows)
            end)
  end.

Definition put_csv_file (file : option (list csv_line)) (w : world) : world :=
  World (temp_data w) (processed_devices w) (found_h5055 w) (h5055_address w)
    (monitoring_start_time w) file (error_log w).

(** The elapsed-time cell of a snapshot taken at [now]. *)
Definition snapshot_t_plus (now : Z) (w : world) : string :=
  format_elapsed_time now (default now (monitoring_start_time w)).

(** The header lines of a file. *)
Definition is_header (l : csv_line) : bool :=
  match l with HeaderLine _ => true | RowLine _ => false end.

Definition header_count (file : option (list csv_line)) : nat :=
  length (filter (λ l, is_header l = true) (default [] file)).

(** ** Frame conditions *)

(** [m] takes every world to one related to it by [R], whether it returns
    or raises. *)
Definition preserves {A} (R : relation world) (m : M A) : Prop :=
  ∀ w, R w (m w).2.

(** The component [f] of the world is left as it was. *)
Definition same {X} (f : world → X) : relation world :=
  λ w w', f w' = f w.

(** How the output file may change: no line is ever altered or removed; a
    file that exists only gains data rows; a file that is missing either
    stays missing or starts with its header, followed by data rows only. *)
Definition file_grows (f f' : option (list csv_line)) : Prop :=
  match f with
  | None =>
      f' = None ∨ ∃ h rows, f' = Some (HeaderLine h :: (RowLine <$> rows))
  | Some content => ∃ rows, f' = Some (content ++ (RowLine <$> rows))
  end.

Definition file_evolves : relation world :=
  λ w w', file_grows (csv_file w) (csv_file w').

(** The locked address, once it is [a], stays [a]. *)
Definition keeps_address (a : string) : relation world :=
  λ w w', h5055_address w = Some a → h5055_address w' = Some a.

(** The decoded updates of a sequence of advertisements, each under the
    address of its device, in arrival order. *)
Definition advertisement_updates (ads : list advertisement)
  : list (string * probe_update) :=
  ads ≫= (λ ad, (λ u, (address ad, u)) <$> decoded ad).

(** The store a monitoring iteration hands to its snapshot: the store it
    started with, with the updates of the advertisements that the scanner
    delivered from the locked address merged in. *)
Definition store_after_scan (a : option string) (sc : scan)
    (temp_data : store) : store :=
  apply_updates
    (advertisement_updates
       (filter (λ ad, Some (address ad) = a) (scan_delivered sc)))
    temp_data.

(** [found_h5055] is never reset, and it is only set together with the
    address. *)
Definition found_stays : relation world :=
  λ w w', found_h5055 w = true → found_h5055 w' = true.

Definition found_has_address : relation world :=
  λ w w',
    (found_h5055 w = true → is_Some (h5055_address w)) →
    (found_h5055 w' = true → is_Some (h5055_address w')).

(** ** A run with a bystander *)

(** A thermometer of another type that happens to advertise nearby, and the
    H5055 the run is after. *)
Definition bystander_advertisement : advertisement :=
  Advertisement "CC:DD" [TempProbe 21.5 1] None (Some "H5075"%string).

Definition target_advertisement : advertisement :=
  Advertisement "AA:BB" [TempProbeWithAlarm (Some 63.2%float) None 1 None]
    None (Some "H5055"%string).

(** One discovery scan that hears both, then one monitoring cycle a minute
    later. *)
Definition bystander_inputs : list cycle_input :=
  [CycleInput (ScanCompletes [bystander_advertisement; target_advertisement])
     0 None;
   CycleInput (ScanCompletes [target_advertisement]) 60000000 None].

(** The devices of the store that have at least one reading, in the order
    of the store. *)
Definition devices_with_readings (td : store) : list string :=
  omap (λ '(device_addr, probes),
          if decide (probes = ∅) then None else Some device_addr) td.

(** An advertisement that can lock the target: decoded without error, as an
    H5055. *)
Definition lockable (ad : advertisement) : bool :=
  bool_decide (decode_error ad = None)
  && bool_decide (device_type ad = Some "H5055"%string).

(** The error records of the advertisements whose decoding raised, in
    order. *)
Definition decode_error_messages (ads : list advertisement) : list string :=
  omap (λ ad, advertisement_error_message ad <$> decode_error ad) ads.

(** [processed_devices] is empty as long as nothing was found. *)
Definition nothing_processed (w : world) : Prop :=
  found_h5055 w = false → processed_devices w = ∅.

(** How a piece of a discovery scan that hears [ads] changes the lock:
    either it leaves the flag and the address alone, or the address is that
    of one of the lockable advertisements among [ads]. *)
Definition lock_step (ads : list advertisement) (w w' : world) : Prop :=
  (found_h5055 w' = found_h5055 w ∧ h5055_address w' = h5055_address w)
  ∨ ∃ ad, ad ∈ ads ∧ lockable ad = true
          ∧ h5055_address w' = Some (address ad).

(** The start of monitoring, once it is [s], stays [s]. *)
Definition keeps_start (s : Z) : relation world :=
  λ w w', monitoring_start_time w = Some s → monitoring_start_time w' = Some s.
(** * Properties *)

(** ** The model at work *)

(** The second end-to-end scenario runs otherwise than the specification
    says: the -1 of the alarm-bearing update replaces 63.2. *)
Example negative_alarm_reading_is_stored :
  reading "AA:BB" 1
    (apply_updates
       [("AA:BB"%string, TempProbe 63.2 1);
        ("AA:BB"%string, TempProbeWithAlarm (Some (-1)%float) None 1 None)] [])
  = Some (Some (-1)%float).
Proof. reflexivity. Qed.

(** A null reading is stored as it is. *)
Example null_alarm_reading_is_stored :
  apply_updates [("AA:BB"%string, TempProbeWithAlarm None None 1 None)] []
  = [("AA:BB"%string, {[1 := None]})].
Proof. reflexivity. Qed.

(** The division of [total_seconds] rounds: one microsecond short of
    [2^34 + 1] seconds is [2^34 + 1] seconds. *)
Example total_seconds_rounds :
  total_seconds 17179869184999999 0 == 17179869185
  ∧ format_elapsed_time 17179869184999999 0 = "4772185:53:05"%string.
Proof. split; reflexivity. Qed.

(** A snapshot of a store that holds a null reading raises. *)
Example null_reading_snapshot :
  print_temperature_readings 5000000 None
    (World [("AA:BB"%string, {[1 := None]})] ∅ true (Some "AA:BB"%string)
       (Some 0) None [])
  = (Raises (Exception type_error_message),
     World [("AA:BB"%string, {[1 := None]})] ∅ true (Some "AA:BB"%string)
       (Some 0) None []).
Proof. reflexivity. Qed.

Example format_1f_values :
  format_1f 63.2 = "63.2"%string ∧ format_1f 0.25 = "0.2"%string
  ∧ format_1f 99.95 = "100.0"%string ∧ format_1f (-0.04) = "-0.0"%string.
Proof. repeat split; reflexivity. Qed.

Example format_elapsed_long :
  format_elapsed_time 359999999000 0 = "99:59:59"%string.
Proof. reflexivity. Qed.

Example dict_to_list_extra_field :
  dict_to_list ["t_plus"; "device"]%string
    {["t_plus" := "0:00:01"; "probe_1" := "63.2"]}%string
  = Raises (Exception "dict contains fields not in fieldnames").
Proof. reflexivity. Qed.

(** Nothing is written for an empty store. *)
Example empty_store_snapshot :
  print_temperature_readings 5000000 None (initial_world None)
  = (Returns tt, initial_world None).
Proof. reflexivity. Qed.

(** A file that cannot be opened ends the run with status 1, and an
    interrupt during a scan ends it with status 0. *)
Example open_failure_is_fatal :
  run_phase
    (run [CycleInput (ScanCompletes [target_advertisement]) 0 None;
          CycleInput (ScanCompletes [target_advertisement]) 60000000
            (Some "Permission denied"%string)]
       (initial_state None))
  = Stopped 1.
Proof. reflexivity. Qed.

Example interrupt_stops_quietly :
  run_phase
    (run [CycleInput (ScanFailsToStop [] KeyboardInterrupt) 0 None]
       (initial_state None))
  = Stopped 0.
Proof. reflexivity. Qed.

(** When the scanner fails after the target was heard, the attempt returns
    false, yet the flag set by the callback ends the search at the next
    test of the loop. *)
Example found_before_scan_error :
  let st1 :=
    run [CycleInput
           (ScanFailsToStop [target_advertisement] (Exception "stop failed"))
           0 None] (initial_state None) in
  run_phase st1 = Searching
  ∧ found_h5055 (run_world st1) = true
  ∧ run_phase
      (step st1 (CycleInput (ScanCompletes []) 1000000 None)) = Monitoring
  ∧ scan_count
      (step st1 (CycleInput (ScanCompletes []) 1000000 None)) = 1.
Proof. repeat split; reflexivity. Qed.

(** ** Facts about insertion-ordered dictionaries *)

Module DictFacts.
Section dict.
Context {V : Type}.
Implicit Types (k : string) (v : V) (d : list (string * V)).

Lemma get_set_eq k v d : Dict.get k (Dict.set k v d) = Some v.
Proof.
  induction d as [|[k' v'] d IH]; simpl.
  - by rewrite decide_True.
  - destruct (decide (k = k')) as [->|Hne]; simpl.
    + by rewrite decide_True.
    + by rewrite decide_False.
Qed.

Lemma get_set_ne k k' v d :
  k ≠ k' → Dict.get k' (Dict.set k v d) = Dict.get k' d.
Proof.
  intros Hne. induction d as [|[k0 v0] d IH]; simpl.
  - by rewrite decide_False.
  - destruct (decide (k = k0)) as [->|]; simpl.
    + by rewrite !decide_False.
    + by rewrite IH.
Qed.

Lemma mem_true k d : Dict.mem k d = true ↔ is_Some (Dict.get k d).
Proof.
  unfold Dict.mem. by destruct (Dict.get k d).
Qed.

Lemma mem_false k d : Dict.mem k d = false ↔ Dict.get k d = None.
Proof. unfold Dict.mem. by destruct (Dict.get k d). Qed.

Lemma set_set k v v' d : Dict.set k v (Dict.set k v' d) = Dict.set k v d.
Proof.
  induction d as [|[k0 v0] d IH]; simpl.
  - by rewrite decide_True.
  - destruct (decide (k = k0)) as [->|Hne]; simpl.
    + by rewrite decide_True.
    + by rewrite decide_False, IH.
Qed.

End dict.
End DictFacts.

(** ** The update rule *)

Section store_facts.
Implicit Types (dev : string) (p : Z) (v : option float) (td : store).

Lemma reading_ensure_device dev dev' p td :
  reading dev' p (ensure_device dev td) = reading dev' p td.
Proof.
  unfold ensure_device, reading.
  destruct (Dict.mem dev td) eqn:Hm; [done|].
  apply DictFacts.mem_false in Hm.
  destruct (decide (dev = dev')) as [<-|Hne].
  - by rewrite DictFacts.get_set_eq, Hm.
  - by rewrite DictFacts.get_set_ne.
Qed.

Lemma get_ensure_device_is_Some dev td :
  is_Some (Dict.get dev (ensure_device dev td)).
Proof.
  unfold ensure_device. destruct (Dict.mem dev td) eqn:Hm.
  - by apply DictFacts.mem_true.
  - rewrite DictFacts.get_set_eq. by eexists.
Qed.

Lemma reading_store_probe dev p v dev' p' td :
  is_Some (Dict.get dev td) →
  reading dev' p' (store_probe dev p v td)
  = if bool_decide (dev = dev' ∧ p = p') then Some v else reading dev' p' td.
Proof.
  intros [probes Hp]. unfold store_probe, reading. rewrite Hp.
  destruct (decide (dev = dev')) as [<-|Hne].
  - rewrite DictFacts.get_set_eq, Hp. simpl.
    destruct (decide (p = p')) as [<-|Hne].
    + rewrite bool_decide_eq_true_2 by done. apply lookup_insert_eq.
    + case_bool_decide as Hc; [by destruct Hc|]. by apply lookup_insert_ne.
  - rewrite DictFacts.get_set_ne by done.
    case_bool_decide as Hc; [by destruct Hc|done].
Qed.

Lemma get_store_probe_is_Some dev p v dev' td :
  is_Some (Dict.get dev' td) → is_Some (Dict.get dev' (store_probe dev p v td)).
Proof.
  intros Hd. unfold store_probe.
  destruct (Dict.get dev td) as [probes|] eqn:Hg; [|done].
  destruct (decide (dev = dev')) as [<-|Hne].
  - rewrite DictFacts.get_set_eq. by eexists.
  - by rewrite DictFacts.get_set_ne.
Qed.

Lemma reading_update_temp_probe dev v p dev' p' td :
  reading dev' p' (update_temp_probe dev v p td)
  = if bool_decide (dev = dev' ∧ p = p') then Some v else reading dev' p' td.
Proof.
  unfold update_temp_probe.
  rewrite reading_store_probe by apply get_ensure_device_is_Some.
  by rewrite reading_ensure_device.
Qed.

Lemma ensure_device_known dev td :
  is_Some (Dict.get dev td) → ensure_device dev td = td.
Proof.
  intros Hd%DictFacts.mem_true. unfold ensure_device. by rewrite Hd.
Qed.

Lemma get_update_temp_probe_is_Some dev v p td :
  is_Some (Dict.get dev (update_temp_probe dev v p td)).
Proof. apply get_store_probe_is_Some, get_ensure_device_is_Some. Qed.

Lemma store_probe_twice dev p v td :
  store_probe dev p v (store_probe dev p v td) = store_probe dev p v td.
Proof.
  unfold store_probe. destruct (Dict.get dev td) as [probes|] eqn:Hg.
  - by rewrite DictFacts.get_set_eq, insert_insert_eq, DictFacts.set_set.
  - by rewrite Hg.
Qed.

(** The guard of [update_temp_probe_with_alarm] comes too late: the method
    does what [update_temp_probe] does with the same temperature. *)
Lemma update_temp_probe_with_alarm_stores dev temp a p l td :
  update_temp_probe_with_alarm dev temp a p l td
  = update_temp_probe dev temp p td.
Proof.
  unfold update_temp_probe_with_alarm.
  rewrite ensure_device_known by apply get_update_temp_probe_is_Some.
  destruct temp as [t|]; [|done]. destruct (PrimFloat.ltb 0 t); [|done].
  unfold update_temp_probe. apply store_probe_twice.
Qed.

Lemma apply_update_stores dev u td :
  apply_update dev u td
  = update_temp_probe dev (update_temp u) (update_probe u) td.
Proof.
  destruct u as [t p|temp a p l]; simpl; [done|].
  apply update_temp_probe_with_alarm_stores.
Qed.

(** What one update does to one entry: the reported temperature is stored,
    whatever it is and whatever the kind of the update. *)
Lemma reading_apply_update dev u dev' p' td :
  reading dev' p' (apply_update dev u td)
  = if bool_decide (dev = dev' ∧ update_probe u = p')
    then Some (update_temp u)
    else reading dev' p' td.
Proof. rewrite apply_update_stores. apply reading_update_temp_probe.
Qed.

Lemma reported_for_cons dev p d u us :
  reported_for dev p ((d, u) :: us)
  = (if bool_decide (d = dev ∧ update_probe u = p)
     then [update_temp u] else []) ++ reported_for dev p us.
Proof.
  unfold reported_for. simpl.
  destruct u as [t q|temp a q l]; simpl; by case_bool_decide.
Qed.

Lemma reading_apply_updates us dev p td :
  reading dev p (apply_updates us td)
  = from_option Some (reading dev p td) (last_reported dev p us).
Proof.
  unfold apply_updates, last_reported.
  revert td. induction us as [|[d u] us IH]; intros td; [done|].
  rewrite reported_for_cons. cbn [foldl fst snd].
  rewrite IH, reading_apply_update.
  case_bool_decide as Hc; [|done]. simpl.
  rewrite last_cons. by destruct (last _).
Qed.
End store_facts.

(** C1: the code does not follow the update rule the claim states.  The
    final value for a (device, probe) pair is the temperature of the last
    update for the pair, accepted or not: an alarm-bearing update whose
    temperature the guard rejects is stored all the same.  After a plain
    50, an alarm-bearing 70.5 and an alarm-bearing -5 the store holds -5,
    where the last accepted update is 70.5. *)
Theorem C1_rejected_alarm_reading_is_stored :
  (∀ us dev p,
     reading dev p (apply_updates us []) = last_reported dev p us)
  ∧ (let us :=
       [("AA:BB"%string, TempProbe 50 1);
        ("AA:BB"%string, TempProbeWithAlarm (Some 70.5%float) None 1 None);
        ("AA:BB"%string, TempProbeWithAlarm (Some (-5)%float) None 1 None)] in
     reading "AA:BB" 1 (apply_updates us []) = Some (Some (-5)%float)
     ∧ last_accepted "AA:BB" 1 us = Some 70.5%float
     ∧ accepted (TempProbeWithAlarm (Some (-5)%float) None 1 None) = false).
Proof.
  split; [|repeat split; reflexivity].
  intros us dev p. rewrite reading_apply_updates.
  by destruct (last_reported dev p us).
Qed.

(** C2: the guard of the alarm-bearing update has no effect, since the
    method has stored the temperature before it reaches the guard.  So the
    code overwrites a stored entry with a negative, a zero and a null value
    when they come with an alarm-bearing update, and the store of a run is
    not always positive. *)
Theorem C2_alarm_update_overwrites_positive_reading :
  (∀ dev temp alarm_temp p low_alarm_temp td,
     update_temp_probe_with_alarm dev temp alarm_temp p low_alarm_temp td
     = update_temp_probe dev temp p td
     ∧ reading dev p
         (update_temp_probe_with_alarm dev temp alarm_temp p low_alarm_temp td)
       = Some temp)
  ∧ (let td := [("AA:BB"%string, {[1 := Some 63.2%float]})] in
     positive_store td
     ∧ reading "AA:BB" 1
         (update_temp_probe_with_alarm "AA:BB" (Some (-1)%float) None 1 None td)
       = Some (Some (-1)%float)
     ∧ reading "AA:BB" 1
         (update_temp_probe_with_alarm "AA:BB" (Some 0%float) None 1 None td)
       = Some (Some 0%float)
     ∧ reading "AA:BB" 1
         (update_temp_probe_with_alarm "AA:BB" None None 1 None td)
       = Some None
     ∧ ¬ positive_store
           (update_temp_probe_with_alarm "AA:BB" (Some (-1)%float) None 1 None
              td)).
Proof.
  split.
  { intros dev temp a p l td.
    rewrite update_temp_probe_with_alarm_stores. split; [done|].
    rewrite reading_update_temp_probe. by rewrite bool_decide_eq_true_2. }
  split; [|repeat split; try reflexivity].
  - intros dev p v. unfold reading. simpl.
    destruct (decide (dev = "AA:BB"%string)); simpl; [|done].
    destruct (decide (p = 1)) as [->|Hne].
    + rewrite lookup_singleton_eq. by intros [= <-].
    + by rewrite lookup_singleton_ne.
  - intros H. specialize (H "AA:BB"%string 1 (Some (-1)%float) eq_refl).
    discriminate H.
Qed.

(** ** Elapsed-time formatting *)

Section elapsed.
Local Open Scope Z_scope.

Lemma Qfloor_div_pos (x : Q) (c : positive) :
  Qfloor (x / (Zpos c # 1)) = Qfloor x / Zpos c.
Proof.
  destruct x as [n d]. unfold Qdiv, Qmult, Qinv. simpl.
  rewrite Z.mul_1_r, Pos2Z.inj_mul. symmetry. apply Z.div_div; lia.
Qed.

Lemma Qfloor_sub_mul (x : Q) (c : positive) (k : Z) :
  Qfloor (x - (Zpos c # 1) * inject_Z k) = Qfloor x - Zpos c * k.
Proof.
  destruct x as [n d]. unfold Qminus, Qplus, Qopp, Qmult, inject_Z. simpl.
  rewrite ?Pos.mul_1_r, ?Z.mul_1_r.
  replace (n + - (Zpos c * k) * Zpos d) with (n + (- (Zpos c * k)) * Zpos d)
    by lia.
  rewrite Z.div_add by lia. lia.
Qed.

Lemma py_int_inject_Z (k : Z) : py_int (inject_Z k) = k.
Proof.
  unfold py_int. destruct (Qle_bool 0 (inject_Z k)).
  - apply Qfloor_Z.
  - apply Qceiling_Z.
Qed.

Lemma py_int_floor (x : Q) : 0 <= Qfloor x → py_int x = Qfloor x.
Proof.
  intros Hx. unfold py_int.
  destruct (Qle_bool 0 x) eqn:Hle; [done|].
  assert (Qle_bool 0 x = true) as Ht; [|congruence].
  apply Qle_bool_iff. eapply Qle_trans; [|apply Qfloor_le].
  change 0%Q with (inject_Z 0). by rewrite <- Zle_Qle.
Qed.

Lemma format_02d_two_digits (n : Z) : 0 <= n < 100 → format_02d n = two_digits n.
Proof.
  intros Hn. rewrite <- (Z2Nat.id n) by lia.
  assert (Z.to_nat n < 100)%nat as Hlt by lia.
  generalize dependent (Z.to_nat n). clear. intros m Hm.
  do 100 (destruct m as [|m]; [reflexivity|]). lia.
Qed.
End elapsed.

(** C7: for every non-negative elapsed duration the formatter gives
    [H:MM:SS] for the whole seconds of the duration: the hours as a plain
    decimal number, the minutes and the seconds as exactly two decimal
    digits; 3661 seconds give [1:01:01] and 59 seconds give [0:00:59]. *)
Theorem C7_elapsed_format (elapsed_seconds : Q) :
  (0 <= elapsed_seconds)%Q →
  format_elapsed_seconds elapsed_seconds = h_mm_ss (Qfloor elapsed_seconds)
  ∧ 0 <= Qfloor elapsed_seconds / 60 mod 60 < 60
  ∧ 0 <= Qfloor elapsed_seconds mod 60 < 60
  ∧ format_elapsed_seconds 3661 = "1:01:01"%string
  ∧ format_elapsed_seconds 59 = "0:00:59"%string.
Proof.
  intros Hx.
  assert (0 <= Qfloor elapsed_seconds) as Hn.
  { change 0 with (Qfloor 0). by apply Qfloor_resp_le. }
  set (n := Qfloor elapsed_seconds) in *.
  assert (0 <= n / 60 mod 60 < 60) as Hm by (apply Z.mod_pos_bound; lia).
  assert (0 <= n mod 60 < 60) as Hs by (apply Z.mod_pos_bound; lia).
  split; [|done].
  unfold format_elapsed_seconds, h_mm_ss, float_mod, float_floordiv.
  rewrite !py_int_inject_Z.
  change 3600%Q with (Zpos 3600 # 1). change 60%Q with (Zpos 60 # 1).
  rewrite !Qfloor_div_pos, Qfloor_sub_mul. fold n.
  rewrite py_int_floor; rewrite Qfloor_sub_mul; fold n.
  - replace ((n - 3600 * (n / 3600)) / 60) with (n / 60 mod 60).
    + replace (n - 60 * (n / 60)) with (n mod 60) by (rewrite Z.mod_eq; lia).
      by rewrite !format_02d_two_digits by lia.
    + change 3600 with (60 * 60). rewrite <- (Z.div_div n 60 60) by lia.
      apply (Z.div_unique _ 60 _ (n mod 60)); [lia|].
      pose proof (Z.div_mod n 60). pose proof (Z.div_mod (n / 60) 60). lia.
  - rewrite <- Z.mod_eq by lia. lia.
Qed.

(** A duration of one hour, one minute and one and a half seconds. *)
Lemma C7_elapsed_format_witness :
  (0 <= 7323 # 2)%Q ∧ format_elapsed_seconds (7323 # 2) = "1:01:01"%string.
Proof.
  assert (0 <= 7323 # 2)%Q as Hpos by done.
  split; [exact Hpos|].
  destruct (C7_elapsed_format (7323 # 2) Hpos) as [Hfmt _]. exact Hfmt.
Defined.

(** ** Column names *)

Lemma str_of_int_inj (a b : Z) : str_of_int a = str_of_int b → a = b.
Proof.
  unfold str_of_int. intros Heq. apply DecimalZ.to_int_inj.
  assert (∀ z, NilZero.int_of_string (NilZero.string_of_int (Z.to_int z))
               = Some (Z.to_int z)) as Hrt.
  { intros z. apply NilZero.isi; destruct z as [|q|q]; simpl; try done;
      intros [= Hq]; by apply DecimalPos.Unsigned.to_uint_nonnil in Hq. }
  apply (f_equal NilZero.int_of_string) in Heq.
  rewrite !Hrt in Heq. congruence.
Qed.

#[global] Instance probe_column_inj : Inj (=) (=) probe_column.
Proof.
  intros a b Heq. unfold probe_column in Heq.
  apply str_of_int_inj. by simplify_eq/=.
Qed.

Lemma probe_column_not_fixed (p : Z) :
  probe_column p ≠ "t_plus"%string ∧ probe_column p ≠ "device"%string.
Proof. by split. Qed.

(** ** The probe columns of a snapshot *)

Lemma elem_of_collect_probe_ids (td : store) (p : Z) :
  p ∈ collect_probe_ids td
  ↔ ∃ dev probes, (dev, probes) ∈ td ∧ is_Some (probes !! p).
Proof.
  unfold collect_probe_ids, Dict.values.
  assert (∀ (l : list (gmap Z (option float))) (acc : gset Z),
            p ∈ foldl (λ s m, s ∪ dom m) acc l
            ↔ p ∈ acc ∨ ∃ m, m ∈ l ∧ is_Some (m !! p)) as Hfold.
  { induction l as [|m l IH]; intros acc; simpl.
    - split; [by left|]. intros [?|(m & Hm & _)]; [done|].
      by apply elem_of_nil in Hm.
    - rewrite IH, elem_of_union, elem_of_dom. split.
      + intros [[?|?]|(m' & ? & ?)]; [by left| |].
        * right. exists m. split; [left|done].
        * right. exists m'. split; [by right|done].
      + intros [?|(m' & [->|?]%elem_of_cons & ?)]; [by left;left|by left;right|].
        right. by exists m'. }
  rewrite Hfold. split.
  - intros [?|(m & Hm & Hp)]; [set_solver|].
    apply list_elem_of_fmap in Hm as ([dev probes] & -> & Hin). eauto.
  - intros (dev & probes & Hin & Hp). right. exists probes. split; [|done].
    apply list_elem_of_fmap. by exists (dev, probes).
Qed.

Lemma sorted_probe_ids_perm (td : store) :
  sorted_probe_ids td ≡ₚ elements (collect_probe_ids td).
Proof. apply merge_sort_Permutation. Qed.

Lemma elem_of_sorted_probe_ids (td : store) (p : Z) :
  p ∈ sorted_probe_ids td ↔ p ∈ collect_probe_ids td.
Proof. by rewrite sorted_probe_ids_perm, elem_of_elements. Qed.

Lemma NoDup_sorted_probe_ids (td : store) : NoDup (sorted_probe_ids td).
Proof. rewrite sorted_probe_ids_perm. apply NoDup_elements. Qed.

Lemma length_sorted_probe_ids (td : store) :
  length (sorted_probe_ids td) = size (collect_probe_ids td).
Proof. by rewrite sorted_probe_ids_perm. Qed.

(** Sorted without repetition is strictly ascending. *)
Lemma sorted_probe_ids_ascending (td : store) :
  StronglySorted Z.lt (sorted_probe_ids td).
Proof.
  pose proof (NoDup_sorted_probe_ids td) as Hnd.
  assert (StronglySorted Z.le (sorted_probe_ids td)) as Hs.
  { apply StronglySorted_merge_sort; apply _. }
  induction Hs as [|x l Hs IH Hall]; [constructor|].
  apply NoDup_cons in Hnd as [Hx Hnd]. constructor; [by apply IH|].
  rewrite Forall_forall in *. intros y Hy.
  assert (x ≠ y) by (by intros ->). specialize (Hall y Hy). lia.
Qed.

Lemma make_fieldnames_eq (td : store) :
  make_fieldnames td
  = ["t_plus"; "device"]%string ++ (probe_column <$> sorted_probe_ids td).
Proof.
  unfold make_fieldnames. generalize (sorted_probe_ids td).
  generalize ["t_plus"; "device"]%string. intros acc ids. revert acc.
  induction ids as [|p ids IH]; intros acc; simpl.
  - by rewrite app_nil_r.
  - by rewrite IH, <- app_assoc.
Qed.

Lemma length_make_fieldnames (td : store) :
  length (make_fieldnames td) = (2 + size (collect_probe_ids td))%nat.
Proof.
  rewrite make_fieldnames_eq, length_app, length_fmap.
  by rewrite length_sorted_probe_ids.
Qed.

(** ** The row of a device *)

Section row_data.
Implicit Types (l : list (Z * option float)) (m : gmap string string).

Let ins := (λ (row_data : gmap string string) (it : Z * option float),
              <[probe_column it.1 := from_option format_1f ""%string it.2]>
                row_data).

Lemma foldl_ins_other l m key :
  (∀ it, it ∈ l → probe_column it.1 ≠ key) →
  foldl ins m l !! key = m !! key.
Proof.
  revert m. induction l as [|it l IH]; intros m Hl; simpl; [done|].
  rewrite IH by (intros; apply Hl; by right).
  unfold ins. rewrite lookup_insert_ne; [done|]. apply Hl. left.
Qed.

Lemma foldl_ins_here l m p v :
  NoDup l.*1 → (p, v) ∈ l →
  foldl ins m l !! probe_column p = Some (from_option format_1f ""%string v).
Proof.
  revert m. induction l as [|it l IH]; intros m Hnd Hin; simpl.
  - by apply elem_of_nil in Hin.
  - rewrite fmap_cons in Hnd. apply NoDup_cons in Hnd as [Hit Hnd].
    apply elem_of_cons in Hin as [<-|Hin]; [|by apply IH].
    rewrite foldl_ins_other.
    + unfold ins. simpl. apply lookup_insert_eq.
    + intros it' Hit' Heq. apply (inj probe_column) in Heq.
      apply Hit. rewrite <- Heq. apply list_elem_of_fmap. by exists it'.
Qed.

Lemma foldl_ins_origin l m key c :
  foldl ins m l !! key = Some c →
  m !! key = Some c ∨ ∃ it, it ∈ l ∧ key = probe_column it.1.
Proof.
  revert m. induction l as [|it l IH]; intros m; simpl; [by left|].
  intros [Hm|(it' & Hin & ->)]%IH.
  - unfold ins in Hm. destruct (decide (probe_column it.1 = key)) as [<-|Hne].
    + right. exists it. split; [left|done].
    + rewrite lookup_insert_ne in Hm by done. by left.
  - right. exists it'. split; [by right|done].
Qed.

Lemma elem_of_sorted_items (probes : gmap Z (option float)) p v :
  (p, v) ∈ sorted_items probes ↔ probes !! p = Some v.
Proof.
  unfold sorted_items. rewrite merge_sort_Permutation.
  apply elem_of_map_to_list.
Qed.

Lemma NoDup_sorted_items (probes : gmap Z (option float)) :
  NoDup (sorted_items probes).*1.
Proof.
  unfold sorted_items. rewrite merge_sort_Permutation.
  apply NoDup_fst_map_to_list.
Qed.

Lemma row_data_of_t_plus t_plus dev probes :
  row_data_of t_plus dev probes !! "t_plus"%string = Some t_plus.
Proof.
  unfold row_data_of. fold ins. rewrite foldl_ins_other.
  - rewrite lookup_insert_ne by done. apply lookup_insert_eq.
  - intros it _. apply probe_column_not_fixed.
Qed.

Lemma row_data_of_device t_plus dev probes :
  row_data_of t_plus dev probes !! "device"%string = Some dev.
Proof.
  unfold row_data_of. fold ins. rewrite foldl_ins_other.
  - apply lookup_insert_eq.
  - intros it _. apply probe_column_not_fixed.
Qed.

Lemma row_data_of_probe t_plus dev probes p :
  row_data_of t_plus dev probes !! probe_column p
  = from_option format_1f ""%string <$> probes !! p.
Proof.
  unfold row_data_of. fold ins.
  destruct (probes !! p) as [v|] eqn:Hp; simpl.
  - apply foldl_ins_here; [apply NoDup_sorted_items|].
    by apply elem_of_sorted_items.
  - rewrite foldl_ins_other.
    + destruct (probe_column_not_fixed p).
      by rewrite !lookup_insert_ne, lookup_empty.
    + intros [p' v'] Hin Heq. apply (inj probe_column) in Heq.
      simpl in Heq. subst p'. apply elem_of_sorted_items in Hin. congruence.
Qed.

Lemma row_data_of_keys t_plus dev probes key :
  is_Some (row_data_of t_plus dev probes !! key) →
  key = "t_plus"%string ∨ key = "device"%string
  ∨ ∃ p, key = probe_column p ∧ is_Some (probes !! p).
Proof.
  unfold row_data_of. fold ins.
  intros [c [Hm|([p v] & Hin & ->)]%foldl_ins_origin].
  - destruct (decide (key = "device"%string)) as [->|]; [by auto|].
    rewrite lookup_insert_ne in Hm by done.
    destruct (decide (key = "t_plus"%string)) as [->|]; [by auto|].
    by rewrite lookup_insert_ne, lookup_empty in Hm.
  - right. right. exists p. split; [done|].
    apply elem_of_sorted_items in Hin. by eexists.
Qed.

(** The loops over the probes of a device read the world and leave it as it
    is; they run through when no reading is [None] and raise at the first
    one that is. *)
Lemma fill_row_data_ok l m w :
  Forall (λ it : Z * option float, is_Some it.2) l →
  fill_row_data l m w = (Returns (foldl ins m l), w).
Proof.
  revert m. induction l as [|[p v] l IH]; intros m Hall; simpl; [done|].
  apply Forall_cons in Hall as [Hv Hall]. simpl in Hv. destruct Hv as [t ->].
  unfold bind. simpl.
  by rewrite IH.
Qed.

Lemma for_each_format_ok l w :
  Forall (λ it : Z * option float, is_Some it.2) l →
  for_each l (λ it, format_temp it.2 ;; ret tt)%py w = (Returns tt, w).
Proof.
  induction l as [|[p v] l IH]; intros Hall; simpl; [done|].
  apply Forall_cons in Hall as [Hv Hall]. simpl in Hv. destruct Hv as [t ->].
  unfold bind. simpl.
  by apply IH.
Qed.

Lemma for_each_format_null l w :
  ¬ Forall (λ it : Z * option float, is_Some it.2) l →
  for_each l (λ it, format_temp it.2 ;; ret tt)%py w
  = (Raises (Exception type_error_message), w).
Proof.
  induction l as [|[p v] l IH]; intros Hnot; simpl.
  - destruct Hnot. constructor.
  - unfold bind. destruct v as [t|]; simpl; [|done].
    apply IH. intros Hall. apply Hnot. constructor; [by eexists|done].
Qed.

Lemma sorted_items_null_free (probes : gmap Z (option float)) :
  Forall (λ it : Z * option float, is_Some it.2) (sorted_items probes)
  ↔ null_free probes.
Proof.
  unfold null_free. rewrite Forall_forall, map_Forall_lookup. split.
  - intros Hall p v Hp. by apply (Hall (p, v)), elem_of_sorted_items.
  - intros Hall [p v] Hin. by apply (Hall p), elem_of_sorted_items.
Qed.

Lemma print_probes_ok probes w :
  null_free probes → print_probes probes w = (Returns tt, w).
Proof.
  intros Hnf. by apply for_each_format_ok, sorted_items_null_free.
Qed.

Lemma print_probes_null probes w :
  ¬ null_free probes →
  print_probes probes w = (Raises (Exception type_error_message), w).
Proof.
  intros Hnf. apply for_each_format_null.
  by rewrite sorted_items_null_free.
Qed.

Lemma make_row_data_ok t_plus dev probes w :
  null_free probes →
  make_row_data t_plus dev probes w
  = (Returns (row_data_of t_plus dev probes), w).
Proof.
  intros Hnf. unfold make_row_data, row_data_of.
  by apply fill_row_data_ok, sorted_items_null_free.
Qed.

Lemma fill_row_data_world l m w : (fill_row_data l m w).2 = w.
Proof.
  revert m. induction l as [|[p v] l IH]; intros m; simpl; [done|].
  unfold bind. destruct v as [t|]; simpl; [apply IH|done].
Qed.

Lemma print_probes_world probes w : (print_probes probes w).2 = w.
Proof.
  unfold print_probes. induction (sorted_items probes) as [|[p v] l IH];
    simpl; [done|].
  unfold bind. destruct v as [t|]; simpl; [apply IH|done].
Qed.
End row_data.

(** [DictWriter] never raises on the row of a device of the store, and lays
    it out as the specification words it. *)
Lemma dict_to_list_row (td : store) t_plus dev
    (probes : gmap Z (option float)) :
  (∀ p, is_Some (probes !! p) → p ∈ collect_probe_ids td) →
  dict_to_list (make_fieldnames td) (row_data_of t_plus dev probes)
  = Returns (row_cells td t_plus dev probes).
Proof.
  intros Hsub. unfold dict_to_list.
  destruct (filter _ _) as [|k ks] eqn:Hf.
  - f_equal. unfold row_cells. rewrite make_fieldnames_eq, fmap_app. simpl.
    rewrite row_data_of_t_plus, row_data_of_device. simpl. do 2 f_equal.
    rewrite <- list_fmap_compose. apply list_fmap_ext. intros _ p _. simpl.
    rewrite row_data_of_probe. by destruct (probes !! p) as [[t|]|].
  - exfalso. assert (k ∈ k :: ks) as Hk by left. rewrite <- Hf in Hk.
    apply list_elem_of_filter in Hk as [Hk Hin]. apply Hk.
    apply list_elem_of_fmap in Hin as ([k' c] & -> & Hin). simpl.
    apply elem_of_map_to_list in Hin.
    rewrite make_fieldnames_eq.
    destruct (row_data_of_keys t_plus dev probes k') as [->|[->|(p & -> & Hp)]].
    + by eexists.
    + set_solver.
    + set_solver.
    + apply elem_of_app. right. apply list_elem_of_fmap. exists p.
      split; [done|]. by apply elem_of_sorted_probe_ids, Hsub.
Qed.

(** ** Writing a snapshot *)

Lemma append_rows_app file fieldnames rows1 rows2 :
  append_rows (append_rows file fieldnames rows1) fieldnames rows2
  = append_rows file fieldnames (rows1 ++ rows2).
Proof.
  destruct rows1 as [|r1 rows1]; [done|].
  destruct rows2 as [|r2 rows2]; simpl.
  - by rewrite app_nil_r.
  - f_equal. destruct file; rewrite fmap_app; simpl.
    + by rewrite <- app_assoc.
    + done.
Qed.

Lemma put_csv_file_same w : put_csv_file (csv_file w) w = w.
Proof. by destruct w. Qed.

Lemma write_device_row_empty open_error t_plus dev w :
  write_device_row open_error t_plus dev ∅ w = (Returns tt, w).
Proof. unfold write_device_row. by rewrite decide_True. Qed.

Lemma write_device_row_ok t_plus dev (probes : gmap Z (option float)) w :
  probes ≠ ∅ →
  null_free probes →
  (∀ p, is_Some (probes !! p) → p ∈ collect_probe_ids (temp_data w)) →
  write_device_row None t_plus dev probes w
  = (Returns tt,
     put_csv_file
       (append_rows (csv_file w) (make_fieldnames (temp_data w))
          [row_cells (temp_data w) t_plus dev probes]) w).
Proof.
  intros Hne Hnf Hsub. unfold write_device_row. rewrite decide_False by done.
  unfold bind at 1. rewrite print_probes_ok by done.
  unfold bind at 1. rewrite make_row_data_ok by done.
  unfold bind, gets, open_append, bind, gets, modify, ret, append_line, modify.
  simpl. rewrite dict_to_list_row by done.
  by destruct (csv_file w) as [content|] eqn:Hfile.
Qed.

(** A device with a stored [None] stops the snapshot before its row. *)
Lemma write_device_row_null open_error t_plus dev
    (probes : gmap Z (option float)) w :
  ¬ null_free probes →
  write_device_row open_error t_plus dev probes w
  = (Raises (Exception type_error_message), w).
Proof.
  intros Hnf. unfold write_device_row. rewrite decide_False.
  - unfold bind at 1. by rewrite print_probes_null.
  - intros ->. apply Hnf, map_Forall_empty.
Qed.

Lemma for_each_write_rows t_plus (l : list (string * gmap Z (option float))) w :
  (∀ dev probes p, (dev, probes) ∈ l → is_Some (probes !! p) →
     p ∈ collect_probe_ids (temp_data w)) →
  for_each l (λ '(device_addr, probes),
     write_device_row None t_plus device_addr probes) w
  = (if decide (Forall (λ dp : string * gmap Z (option float),
                          null_free dp.2) l)
     then Returns tt else Raises (Exception type_error_message),
     put_csv_file
       (append_rows (csv_file w) (make_fieldnames (temp_data w))
          (device_rows (temp_data w) t_plus (readable_prefix l))) w).
Proof.
  revert w. induction l as [|[dev probes] l IH]; intros w Hsub; simpl.
  - by rewrite put_csv_file_same.
  - unfold bind. destruct (decide (null_free probes)) as [Hnf|Hnf].
    + assert (∀ w1, temp_data w1 = temp_data w →
                for_each l (λ '(device_addr, probes0),
                  write_device_row None t_plus device_addr probes0) w1
                = (if decide (Forall (λ dp : string * gmap Z (option float),
                                        null_free dp.2) ((dev, probes) :: l))
                   then Returns tt else Raises (Exception type_error_message),
                   put_csv_file
                     (append_rows (csv_file w1) (make_fieldnames (temp_data w))
                        (device_rows (temp_data w) t_plus (readable_prefix l)))
                     w1)) as Hrest.
      { intros w1 Htd. rewrite IH.
        - rewrite Htd. f_equal. apply decide_ext. rewrite Forall_cons.
          simpl. tauto.
        - intros ???? ?. rewrite Htd. eapply Hsub; [by right|done]. }
      destruct (decide (probes = ∅)) as [->|Hne].
      * rewrite write_device_row_empty. by rewrite Hrest.
      * rewrite write_device_row_ok; [|done|done|].
        -- rewrite Hrest by done.
           change (csv_file (put_csv_file ?f w)) with f.
           change (put_csv_file ?f (put_csv_file ?g w)) with (put_csv_file f w).
           rewrite append_rows_app. do 3 f_equal.
           unfold device_rows. simpl. by rewrite decide_False.
        -- intros p Hp. eapply Hsub; [left|done].
    + rewrite write_device_row_null by done. simpl.
      rewrite decide_False, put_csv_file_same; [done|].
      by intros [? _]%Forall_cons.
Qed.

(** What a snapshot does when the file can be opened. *)
Lemma print_temperature_readings_ok now w :
  print_temperature_readings now None w
  = (snapshot_outcome (temp_data w),
     match temp_data w with
     | [] => w
     | _ :: _ =>
         put_csv_file
           (append_rows (csv_file w) (make_fieldnames (temp_data w))
              (snapshot_rows (temp_data w) (snapshot_t_plus now w)))
           (set_monitoring_start_time
              (default now (monitoring_start_time w)) w)
     end).
Proof.
  unfold print_temperature_readings, snapshot_t_plus, snapshot_rows,
    snapshot_outcome, no_null_reading.
  unfold bind at 1. unfold gets at 1.
  destruct (temp_data w) as [|dp td] eqn:Htd.
  { by rewrite decide_True by constructor. }
  assert (∀ w', temp_data w' = temp_data w →
            ∀ dev probes p, (dev, probes) ∈ dp :: td →
              is_Some (probes !! p) → p ∈ collect_probe_ids (temp_data w'))
    as Hsub.
  { intros w' -> dev probes p Hin Hp. rewrite Htd.
    apply elem_of_collect_probe_ids. eauto. }
  unfold bind, gets, modify, ret.
  destruct (monitoring_start_time w) as [s|] eqn:Hs.
  - rewrite for_each_write_rows by (by apply Hsub).
    rewrite Htd. f_equal. unfold put_csv_file, set_monitoring_start_time.
    simpl. by rewrite Hs, Htd.
  - rewrite for_each_write_rows by (by apply Hsub).
    simpl. by rewrite Htd.
Qed.

(** ** Frame conditions of the monadic operations *)

#[global] Instance same_preorder {X} (f : world → X) : PreOrder (same f).
Proof.
  split.
  - by intros w.
  - intros w1 w2 w3 H12 H23. unfold same in *. congruence.
Qed.

#[global] Instance file_grows_preorder : PreOrder file_grows.
Proof.
  split.
  - intros [c|]; simpl; [|by left]. exists []. by rewrite app_nil_r.
  - intros [c1|] f2 f3; simpl.
    + intros [rows ->] [rows' ->]. exists (rows ++ rows').
      by rewrite fmap_app, app_assoc.
    + intros [->|(h & rows & ->)]; [done|]. intros [rows' ->]. right.
      exists h, (rows ++ rows'). by rewrite fmap_app.
Qed.

#[global] Instance file_evolves_preorder : PreOrder file_evolves.
Proof.
  split.
  - intros w. unfold file_evolves. reflexivity.
  - intros w1 w2 w3. unfold file_evolves. by etrans.
Qed.

Lemma same_file_evolves w w' : same csv_file w w' → file_evolves w w'.
Proof. unfold same, file_evolves. intros ->. reflexivity. Qed.

Section preserves.
Context (R : relation world) `{!PreOrder R}.

Lemma preserves_ret {A} (a : A) : preserves R (ret a).
Proof. intros w. simpl. reflexivity. Qed.

Lemma preserves_raise {A} (e : exn) : preserves R (raise (A:=A) e).
Proof. intros w. simpl. reflexivity. Qed.

Lemma preserves_gets {A} (f : world → A) : preserves R (gets f).
Proof. intros w. simpl. reflexivity. Qed.

Lemma preserves_modify (f : world → world) :
  (∀ w, R w (f w)) → preserves R (modify f).
Proof. intros Hf w. apply Hf. Qed.

Lemma preserves_bind {A B} (m : M A) (k : A → M B) :
  preserves R m → (∀ a, preserves R (k a)) → preserves R (bind m k).
Proof.
  intros Hm Hk w. unfold bind. specialize (Hm w).
  destruct (m w) as [[a|e] w']; simpl in *; [|done].
  etrans; [exact Hm|apply Hk].
Qed.

Lemma preserves_try {A} (body : M A) (handler : string → M A) :
  preserves R body → (∀ msg, preserves R (handler msg)) →
  preserves R (try_except_Exception body handler).
Proof.
  intros Hm Hh w. unfold try_except_Exception. specialize (Hm w).
  destruct (body w) as [[a|[msg|]] w']; simpl in *; try done.
  etrans; [exact Hm|apply Hh].
Qed.

Lemma preserves_for_each {A} (xs : list A) (body : A → M unit) :
  (∀ x, preserves R (body x)) → preserves R (for_each xs body).
Proof.
  intros Hbody. induction xs as [|x xs IH]; simpl.
  - apply preserves_ret.
  - apply preserves_bind; [apply Hbody|done].
Qed.

Lemma preserves_deliver {L} ads (callback : L → advertisement → M L) l :
  (∀ l ad, preserves R (callback l ad)) → preserves R (deliver ads callback l).
Proof.
  intros Hcb. revert l. induction ads as [|ad ads IH]; intros l; simpl.
  - apply preserves_ret.
  - apply preserves_bind; [apply Hcb|done].
Qed.

Lemma preserves_run_scanner {L} sc (callback : L → advertisement → M L) l :
  (∀ l ad, preserves R (callback l ad)) →
  preserves R (run_scanner sc callback l).
Proof.
  intros Hcb. destruct sc as [ads|e|ads e]; simpl.
  - by apply preserves_deliver.
  - apply preserves_raise.
  - apply preserves_bind; [by apply preserves_deliver|].
    intros _. apply preserves_raise.
Qed.

(** A relation that ignores the globals touched by the scans is preserved
    by them. *)
Context (Hlog : ∀ msg, preserves R (logger_error msg)).
Context (Htd : ∀ td w, R w (set_temp_data td w)).
Context (Hproc : ∀ s w, R w (set_processed_devices s w)).

Lemma preserves_process_advertisement_when ad :
  (∀ w, R w (set_found (address ad) w)) →
  preserves R (process_advertisement ad).
Proof.
  intros Hfound. unfold process_advertisement.
  apply preserves_bind; [by apply preserves_modify|]. intros _.
  apply preserves_bind.
  { destruct (decode_error ad); [apply preserves_raise|apply preserves_ret]. }
  intros _. apply preserves_bind; [apply preserves_gets|]. intros processed.
  destruct (_ && _); [|apply preserves_ret].
  apply preserves_bind; [by apply preserves_modify|]. intros _.
  by apply preserves_modify.
Qed.

Lemma preserves_monitoring_callback_when a l ad :
  (∀ w, R w (set_found a w)) →
  preserves R (monitoring_callback (Some a) l ad).
Proof.
  intros Hfound. unfold monitoring_callback.
  apply preserves_try; [|done].
  case_bool_decide as Ha; [|apply preserves_ret].
  apply preserves_process_advertisement_when. by injection Ha as ->.
Qed.

Lemma preserves_scan_specific_device_when a sc :
  (∀ w, R w (set_found a w)) →
  preserves R (scan_specific_device (Some a) sc).
Proof.
  intros Hfound. unfold scan_specific_device.
  apply preserves_try; [|done].
  apply preserves_run_scanner. intros l ad.
  by apply preserves_monitoring_callback_when.
Qed.

Lemma preserves_scan_specific_device_None sc :
  preserves R (scan_specific_device None sc).
Proof.
  unfold scan_specific_device. apply preserves_try; [|done].
  apply preserves_run_scanner. intros l ad. unfold monitoring_callback.
  apply preserves_try; [|done].
  rewrite bool_decide_eq_false_2 by done. apply preserves_ret.
Qed.

Context (Hfound : ∀ a w, R w (set_found a w)).

Lemma preserves_process_advertisement ad :
  preserves R (process_advertisement ad).
Proof. by apply preserves_process_advertisement_when. Qed.

Lemma preserves_scan_for_devices sc : preserves R (scan_for_devices sc).
Proof.
  unfold scan_for_devices.
  apply preserves_bind; [by apply preserves_modify|]. intros _.
  apply preserves_try.
  - apply preserves_bind.
    + apply preserves_run_scanner. intros l ad. unfold discovery_callback.
      apply preserves_try.
      * apply preserves_bind; [apply preserves_process_advertisement|].
        intros _. apply preserves_bind; [apply preserves_gets|].
        intros ?. apply preserves_ret.
      * intros msg. apply preserves_bind; [done|]. intros _.
        apply preserves_ret.
    + intros ?. apply preserves_bind; [apply preserves_gets|].
      intros ?. apply preserves_ret.
  - intros msg. apply preserves_bind; [done|]. intros _. apply preserves_ret.
Qed.

Lemma preserves_scan_specific_device a sc :
  preserves R (scan_specific_device a sc).
Proof.
  destruct a as [a|].
  - by apply preserves_scan_specific_device_when.
  - apply preserves_scan_specific_device_None.
Qed.
End preserves.

(** ** Frame conditions of a snapshot *)

Lemma preserves_readonly (R : relation world) `{!PreOrder R} {A} (m : M A) :
  (∀ w, (m w).2 = w) → preserves R m.
Proof. intros Hm w. rewrite Hm. reflexivity. Qed.

Lemma make_row_data_world t_plus dev probes w :
  (make_row_data t_plus dev probes w).2 = w.
Proof. apply fill_row_data_world. Qed.

Lemma write_device_row_file_evolves open_error t_plus dev probes :
  preserves file_evolves (write_device_row open_error t_plus dev probes).
Proof.
  intros w. unfold write_device_row, file_evolves.
  destruct (decide (probes = ∅)); [reflexivity|].
  unfold bind at 1. pose proof (print_probes_world probes w) as Hw1.
  destruct (print_probes probes w) as [[[]|e] w1]; simpl in Hw1; subst w1;
    [|reflexivity].
  unfold bind at 1.
  pose proof (make_row_data_world t_plus dev probes w) as Hw2.
  destruct (make_row_data t_plus dev probes w) as [[row_data|e] w2];
    simpl in Hw2; subst w2; [|reflexivity].
  unfold bind, gets, open_append, bind, gets, modify, ret, append_line,
    modify, raise.
  destruct open_error as [msg|]; simpl; [reflexivity|].
  destruct (dict_to_list _ _) as [cells|e]; destruct (csv_file w) as [c|];
    simpl.
  - by exists [cells].
  - right. by exists (make_fieldnames (temp_data w)), [cells].
  - exists []. by rewrite app_nil_r.
  - right. by exists (make_fieldnames (temp_data w)), [].
Qed.

Lemma print_temperature_readings_file_evolves now open_error :
  preserves file_evolves (print_temperature_readings now open_error).
Proof.
  unfold print_temperature_readings.
  apply preserves_bind; [apply _|apply preserves_gets, _|]. intros [|dp td].
  { apply preserves_ret, _. }
  apply preserves_bind; [apply _|apply preserves_gets, _|]. intros start.
  apply preserves_bind; [apply _| |].
  - destruct start; [apply preserves_ret, _|].
    apply preserves_bind; [apply _| |intros; apply preserves_ret, _].
    apply preserves_modify. intros w. apply same_file_evolves. done.
  - intros start_time. apply preserves_for_each; [apply _|].
    intros [dev probes]. apply write_device_row_file_evolves.
Qed.

Lemma write_device_row_same {X} (f : world → X) open_error t_plus dev probes :
  (∀ c w, f (set_csv_file c w) = f w) →
  preserves (same f) (write_device_row open_error t_plus dev probes).
Proof.
  intros Hfile. unfold write_device_row.
  destruct (decide (probes = ∅)); [apply preserves_ret, _|].
  apply preserves_bind;
    [apply _|apply preserves_readonly, print_probes_world; apply _|].
  intros _.
  apply preserves_bind;
    [apply _|apply preserves_readonly, make_row_data_world; apply _|].
  intros row_data.
  apply preserves_bind; [apply _|apply preserves_gets, _|]. intros exists_.
  apply preserves_bind; [apply _|apply preserves_gets, _|]. intros names.
  assert (∀ l, preserves (same f) (append_line l)) as Happend.
  { intros l. apply preserves_modify. intros w. apply Hfile. }
  apply preserves_bind; [apply _| |].
  { unfold open_append. destruct open_error; [apply preserves_raise, _|].
    apply preserves_bind; [apply _|apply preserves_gets, _|]. intros c.
    apply preserves_bind; [apply _| |intros; apply preserves_ret, _].
    apply preserves_modify. intros w. apply Hfile. }
  intros _. apply preserves_bind; [apply _| |].
  { destruct exists_; [apply preserves_ret, _|apply Happend]. }
  intros _. destruct (dict_to_list _ _); [apply Happend|].
  apply preserves_raise, _.
Qed.

Lemma print_temperature_readings_same {X} (f : world → X) now open_error :
  (∀ t w, f (set_monitoring_start_time t w) = f w) →
  (∀ c w, f (set_csv_file c w) = f w) →
  preserves (same f) (print_temperature_readings now open_error).
Proof.
  intros Hstart Hfile. unfold print_temperature_readings.
  apply preserves_bind; [apply _|apply preserves_gets, _|]. intros [|dp td].
  { apply preserves_ret, _. }
  apply preserves_bind; [apply _|apply preserves_gets, _|]. intros start.
  apply preserves_bind; [apply _| |].
  - destruct start; [apply preserves_ret, _|].
    apply preserves_bind; [apply _| |intros; apply preserves_ret, _].
    apply preserves_modify. intros w. apply Hstart.
  - intros start_time. apply preserves_for_each; [apply _|].
    intros [dev probes]. by apply write_device_row_same.
Qed.

(** ** The shape of a snapshot *)

Lemma length_row_cells td t_plus dev probes :
  length (row_cells td t_plus dev probes) = length (make_fieldnames td).
Proof.
  unfold row_cells. rewrite make_fieldnames_eq, !length_app, !length_fmap.
  done.
Qed.

Lemma device_rows_length td t_plus l :
  Forall (λ cells, length cells = length (make_fieldnames td))
         (device_rows td t_plus l).
Proof.
  apply Forall_forall. intros cells. unfold device_rows.
  rewrite list_elem_of_omap. intros ([dev probes] & _ & Hc).
  destruct (decide (probes = ∅)); [done|]. injection Hc as <-.
  apply length_row_cells.
Qed.

Lemma readable_prefix_no_null (l : list (string * gmap Z (option float))) :
  Forall (λ dp : string * gmap Z (option float), null_free dp.2) l →
  readable_prefix l = l.
Proof.
  induction 1 as [|[dev probes] l Hnf Hall IH]; simpl; [done|].
  simpl in Hnf. by rewrite decide_True, IH.
Qed.

Lemma snapshot_outcome_no_null td :
  no_null_reading td → snapshot_outcome td = Returns tt.
Proof. intros Hnn. unfold snapshot_outcome. by rewrite decide_True. Qed.

Lemma snapshot_rows_nonempty td t_plus p :
  no_null_reading td →
  p ∈ collect_probe_ids td → snapshot_rows td t_plus ≠ [].
Proof.
  intros Hnn (dev & probes & Hin & Hp)%elem_of_collect_probe_ids Hnil.
  assert (row_cells td t_plus dev probes ∈ snapshot_rows td t_plus) as Hrow.
  { unfold snapshot_rows, device_rows. rewrite readable_prefix_no_null by done.
    apply list_elem_of_omap.
    exists (dev, probes). split; [done|].
    rewrite decide_False; [done|]. intros ->.
    rewrite lookup_empty in Hp. by destruct Hp. }
  rewrite Hnil in Hrow. by apply elem_of_nil in Hrow.
Qed.

Lemma snapshot_spec now w :
  ∃ w', print_temperature_readings now None w
        = (snapshot_outcome (temp_data w), w')
        ∧ temp_data w' = temp_data w
        ∧ csv_file w'
          = append_rows (csv_file w) (make_fieldnames (temp_data w))
              (snapshot_rows (temp_data w) (snapshot_t_plus now w)).
Proof.
  rewrite print_temperature_readings_ok. eexists. split; [reflexivity|].
  destruct (temp_data w) as [|dp td] eqn:Htd; [by rewrite Htd|].
  simpl. by rewrite Htd.
Qed.

(** C3: when a probe id that the committed header does not cover has
    appeared in the store, the next snapshot computes its field names from
    all current data; the writer does not raise and does not write a header,
    and every row it appends is laid out on the new field names, which
    differ from the committed header and outnumber its columns.  (A snapshot
    only ends otherwise than normally when the store holds a null reading,
    and then by the [TypeError] of that reading, after the rows of the
    devices before it.) *)
Theorem C3_new_probe_after_header (w : world) (now : Z) (td0 : store)
    (rest : list csv_line) (p : Z) :
  csv_file w = Some (HeaderLine (make_fieldnames td0) :: rest) →
  collect_probe_ids td0 ⊆ collect_probe_ids (temp_data w) →
  p ∈ collect_probe_ids (temp_data w) →
  p ∉ collect_probe_ids td0 →
  ∃ w' rows,
    print_temperature_readings now None w
    = (snapshot_outcome (temp_data w), w')
    ∧ (no_null_reading (temp_data w) →
       print_temperature_readings now None w = (Returns tt, w')
       ∧ rows ≠ [])
    ∧ csv_file w'
      = Some (HeaderLine (make_fieldnames td0)
                :: (rest ++ (RowLine <$> rows)))
    ∧ make_fieldnames (temp_data w) ≠ make_fieldnames td0
    ∧ probe_column p ∈ make_fieldnames (temp_data w)
    ∧ (probe_column p ∉ make_fieldnames td0)
    ∧ Forall (λ cells,
         length cells = length (make_fieldnames (temp_data w))
         ∧ (length (make_fieldnames td0) < length cells)%nat) rows.
Proof.
  intros Hfile Hsub Hp Hp0.
  assert (probe_column p ∈ make_fieldnames (temp_data w)) as Hcol.
  { rewrite make_fieldnames_eq. apply elem_of_app. right.
    apply list_elem_of_fmap. exists p.
    by rewrite elem_of_sorted_probe_ids. }
  assert (probe_column p ∉ make_fieldnames td0) as Hcol0.
  { rewrite make_fieldnames_eq. intros [Hfix|Hin]%elem_of_app.
    - destruct (probe_column_not_fixed p) as [Ht Hd].
      apply elem_of_cons in Hfix as [?|Hfix]; [done|].
      apply elem_of_cons in Hfix as [?|Hfix]; [done|].
      by apply elem_of_nil in Hfix.
    - apply list_elem_of_fmap in Hin as (p' & Heq & Hin).
      apply (inj probe_column) in Heq. subst p'.
      by apply elem_of_sorted_probe_ids in Hin. }
  assert (length (make_fieldnames td0)
          < length (make_fieldnames (temp_data w)))%nat as Hlen.
  { rewrite !length_make_fieldnames.
    assert (size (collect_probe_ids td0)
            < size (collect_probe_ids (temp_data w)))%nat; [|lia].
    apply subset_size. split; [done|]. intros Hsup. by apply Hp0, Hsup. }
  destruct (snapshot_spec now w) as (w' & Hrun & _ & Hfile').
  exists w', (snapshot_rows (temp_data w) (snapshot_t_plus now w)).
  split; [done|]. split.
  { intros Hnn. rewrite Hrun, snapshot_outcome_no_null by done.
    split; [done|]. by apply (snapshot_rows_nonempty _ _ p). }
  split.
  { rewrite Hfile', Hfile. unfold append_rows.
    destruct (snapshot_rows _ _); [by rewrite app_nil_r|done]. }
  split; [by intros Heq; rewrite Heq in Hcol|].
  split; [done|]. split; [done|].
  eapply Forall_impl; [apply device_rows_length|].
  simpl. intros cells ->. done.
Qed.

(** A header committed for probe 1 alone, then probe 2 appears. *)
Lemma C3_new_probe_after_header_witness :
  ∃ w' rows,
    print_temperature_readings 61000000 None
      (World [("AA:BB"%string, {[1 := Some 63.2%float; 2 := Some 71.5%float]})]
         ∅ true (Some "AA:BB"%string) (Some 0)
         (Some [HeaderLine
                  (make_fieldnames [("AA:BB"%string, {[1 := Some 63.2%float]})]);
                RowLine ["0:00:01"; "AA:BB"; "63.2"]%string]) [])
    = (Returns tt, w')
    ∧ csv_file w'
      = Some (HeaderLine ["t_plus"; "device"; "probe_1"]%string
                :: ([RowLine ["0:00:01"; "AA:BB"; "63.2"]%string]
                    ++ (RowLine <$> rows)))
    ∧ rows = [["0:01:01"; "AA:BB"; "63.2"; "71.5"]%string].
Proof.
  destruct (C3_new_probe_after_header
    (World [("AA:BB"%string, {[1 := Some 63.2%float; 2 := Some 71.5%float]})]
       ∅ true (Some "AA:BB"%string) (Some 0)
       (Some [HeaderLine
                (make_fieldnames [("AA:BB"%string, {[1 := Some 63.2%float]})]);
              RowLine ["0:00:01"; "AA:BB"; "63.2"]%string]) [])
    61000000 [("AA:BB"%string, {[1 := Some 63.2%float]})]
    [RowLine ["0:00:01"; "AA:BB"; "63.2"]%string] 2)
    as (w' & rows & _ & Hok & Hfile & _).
  - reflexivity.
  - compute_done.
  - compute_done.
  - compute_done.
  - destruct Hok as [Hrun _].
    { repeat constructor. apply map_Forall_lookup. intros i v Hi.
      destruct (decide (i = 1)) as [->|]; [by simplify_map_eq|].
      destruct (decide (i = 2)) as [->|]; by simplify_map_eq. }
    exists w', rows. split; [exact Hrun|]. split; [exact Hfile|].
    vm_compute in Hrun. injection Hrun as <-. vm_compute in Hfile.
    injection Hfile as Hrows. destruct rows as [|r [|r' rows]]; try done.
    simpl in Hrows. by injection Hrows as ->.
Defined.

(** C4: every write of a snapshot uses the column list [t_plus], [device],
    then one column per distinct probe id found on any device of the store,
    strictly ascending by id; the row of a device carries its readings under
    their columns and leaves the columns of the probes it lacks empty. *)
Theorem C4_columns_of_a_write (w : world) (t_plus dev : string)
    (probes : gmap Z (option float)) :
  (dev, probes) ∈ temp_data w →
  probes ≠ ∅ →
  null_free probes →
  ∃ ids cells,
    make_fieldnames (temp_data w)
    = ["t_plus"; "device"]%string ++ (probe_column <$> ids)
    ∧ StronglySorted Z.lt ids
    ∧ (∀ p, p ∈ ids ↔ ∃ dev' probes',
             (dev', probes') ∈ temp_data w ∧ is_Some (probes' !! p))
    ∧ write_device_row None t_plus dev probes w
      = (Returns tt,
         put_csv_file
           (Some (match csv_file w with
                  | None => [HeaderLine (make_fieldnames (temp_data w))]
                  | Some content => content
                  end ++ [RowLine ([t_plus; dev] ++ cells)])) w)
    ∧ length cells = length ids
    ∧ (∀ i p, ids !! i = Some p →
         cells !! i = Some (match probes !! p with
                            | Some (Some t) => format_1f t
                            | _ => ""%string
                            end)).
Proof.
  intros Hin Hne Hnf.
  exists (sorted_probe_ids (temp_data w)),
    ((λ p, match probes !! p with
           | Some (Some t) => format_1f t
           | _ => ""%string
           end) <$> sorted_probe_ids (temp_data w)).
  split; [apply make_fieldnames_eq|].
  split; [apply sorted_probe_ids_ascending|].
  split.
  { intros p. rewrite elem_of_sorted_probe_ids.
    apply elem_of_collect_probe_ids. }
  split.
  { rewrite write_device_row_ok; [|done|done|].
    - unfold append_rows, row_cells. by destruct (csv_file w).
    - intros p Hp. apply elem_of_collect_probe_ids. eauto. }
  split; [by rewrite length_fmap|].
  intros i p Hi. by rewrite list_lookup_fmap, Hi.
Qed.

(** The third end-to-end scenario: probes 1 and 2 on one device, probe 1 on
    the other. *)
Lemma C4_columns_of_a_write_witness :
  ∃ ids cells,
    make_fieldnames
      [("AA:BB"%string, {[1 := Some 63.2%float; 2 := Some 71.5%float]});
       ("CC:DD"%string, {[1 := Some 20.5%float]})]
    = ["t_plus"; "device"]%string ++ (probe_column <$> ids)
    ∧ ids = [1; 2]
    ∧ cells = ["20.5"; ""]%string.
Proof.
  destruct (C4_columns_of_a_write
    (World [("AA:BB"%string, {[1 := Some 63.2%float; 2 := Some 71.5%float]});
            ("CC:DD"%string, {[1 := Some 20.5%float]})]
       ∅ true (Some "AA:BB"%string) (Some 0) None [])
    "0:01:00" "CC:DD" {[1 := Some 20.5%float]})
    as (ids & cells & Hnames & _ & _ & _ & Hlen & Hcells).
  - simpl. set_solver.
  - intros Hempty. apply (f_equal (λ m, m !! 1)) in Hempty.
    vm_compute in Hempty. discriminate Hempty.
  - apply map_Forall_singleton. by eexists.
  - exists ids, cells. split; [exact Hnames|].
    assert (ids = [1; 2]) as ->.
    { rewrite make_fieldnames_eq in Hnames. apply app_inv_head in Hnames.
      apply (inj (fmap probe_column)) in Hnames. by rewrite <- Hnames. }
    split; [done|].
    destruct cells as [|c1 [|c2 [|c3 cells]]]; try done.
    pose proof (Hcells 0%nat 1 eq_refl) as H0.
    pose proof (Hcells 1%nat 2 eq_refl) as H1.
    vm_compute in H0, H1. by simplify_eq.
Defined.

(** ** Frame conditions of the main loop *)

Section step_preserves.
Context (R : relation world) `{!PreOrder R}.
Context (Hlog : ∀ msg, preserves R (logger_error msg)).
Context (Htd : ∀ td w, R w (set_temp_data td w)).
Context (Hproc : ∀ s w, R w (set_processed_devices s w)).
Context (Hfound : ∀ a w, R w (set_found a w)).
Context (Hstart : ∀ t w, R w (set_monitoring_start_time t w)).
Context (Hprint : ∀ now oe, preserves R (print_temperature_readings now oe)).

Lemma main_loop_handlers_preserve count (m : M phase) w :
  preserves R m → R w (run_world (main_loop_handlers count (m w))).
Proof.
  intros Hm. specialize (Hm w). unfold main_loop_handlers.
  destruct (m w) as [[ph'|[msg|]] w']; simpl in *; try done.
  etrans; [exact Hm|]. apply Hlog.
Qed.

Lemma enter_monitoring_preserves now : preserves R (enter_monitoring now).
Proof.
  unfold enter_monitoring. apply preserves_bind; [done| |].
  - by apply preserves_modify.
  - intros _. by apply preserves_ret.
Qed.

Lemma step_preserves st inp : R (run_world st) (run_world (step st inp)).
Proof.
  unfold step. destruct (run_phase st); [| |reflexivity].
  - destruct (found_h5055 (run_world st)).
    + apply main_loop_handlers_preserve, enter_monitoring_preserves.
    + apply main_loop_handlers_preserve.
      apply preserves_bind; [done|by apply preserves_scan_for_devices|].
      intros [|]; [apply enter_monitoring_preserves|by apply preserves_ret].
  - apply main_loop_handlers_preserve.
    apply preserves_bind; [done|by apply preserves_modify|]. intros _.
    apply preserves_bind; [done|by apply preserves_gets|]. intros a.
    apply preserves_bind; [done|by apply preserves_scan_specific_device|].
    intros _. apply preserves_bind; [done|apply Hprint|].
    intros _. by apply preserves_ret.
Qed.

Lemma run_preserves inputs st : R (run_world st) (run_world (run inputs st)).
Proof.
  unfold run. revert st. induction inputs as [|inp inputs IH]; intros st; simpl.
  - reflexivity.
  - etrans; [apply step_preserves|apply IH].
Qed.
End step_preserves.

Lemma run_file_evolves inputs st :
  file_evolves (run_world st) (run_world (run inputs st)).
Proof.
  apply run_preserves; try apply _;
    try (intros; apply same_file_evolves; done).
  - intros msg w. by apply same_file_evolves.
  - apply print_temperature_readings_file_evolves.
Qed.

Lemma header_count_rows content rows :
  header_count (Some (content ++ (RowLine <$> rows)))
  = header_count (Some content).
Proof.
  unfold header_count. simpl. rewrite filter_app, length_app.
  assert (filter (λ l, is_header l = true) (RowLine <$> rows) = []) as ->.
  { induction rows as [|r rows IH]; [done|]. simpl.
    rewrite filter_cons_False by done. exact IH. }
  simpl. lia.
Qed.

(** C5: whatever the run does, a file that is missing at some point is, at
    any later point, either still missing or made of one header line, in
    first position, followed by data rows only; a file that exists only
    gains data rows.  So the header is written once, with the first write
    to a missing file, and never again. *)
Theorem C5_header_written_once (inputs : list cycle_input) (st : run_state) :
  let before := csv_file (run_world st) in
  let after := csv_file (run_world (run inputs st)) in
  match before with
  | None =>
      (after = None
       ∨ ∃ h rows, after = Some (HeaderLine h :: (RowLine <$> rows)))
      ∧ header_count after = match after with Some _ => 1 | None => 0 end%nat
  | Some content =>
      (∃ rows, after = Some (content ++ (RowLine <$> rows)))
      ∧ header_count after = header_count before
  end.
Proof.
  intros before after.
  pose proof (run_file_evolves inputs st) as Hev.
  unfold file_evolves, file_grows in Hev. fold before after in Hev.
  destruct before as [content|].
  - split; [done|]. destruct Hev as [rows ->]. apply header_count_rows.
  - split; [done|]. destruct Hev as [->|(h & rows & ->)]; [done|].
    change (HeaderLine h :: (RowLine <$> rows))
      with ([HeaderLine h] ++ (RowLine <$> rows)).
    by rewrite header_count_rows.
Qed.

Lemma device_rows_same_but_t_plus td t1 t2 l :
  Forall2 (λ r1 r2, ∃ rest, r1 = t1 :: rest ∧ r2 = t2 :: rest)
          (device_rows td t1 l) (device_rows td t2 l).
Proof.
  induction l as [|[dev probes] l IH]; simpl; [constructor|].
  destruct (decide (probes = ∅)); [done|].
  constructor; [|done]. unfold row_cells. simpl. eauto.
Qed.

(** C6: two snapshots in a row leave the store as it was, end the same
    way, and write the same rows but for the elapsed-time cell; both
    return normally when the store holds no null reading. *)
Theorem C6_snapshot_twice (w : world) (now1 now2 : Z) :
  ∃ w1 w2 rows1 rows2,
    print_temperature_readings now1 None w
    = (snapshot_outcome (temp_data w), w1)
    ∧ print_temperature_readings now2 None w1
      = (snapshot_outcome (temp_data w), w2)
    ∧ (no_null_reading (temp_data w) →
       print_temperature_readings now1 None w = (Returns tt, w1)
       ∧ print_temperature_readings now2 None w1 = (Returns tt, w2))
    ∧ temp_data w1 = temp_data w
    ∧ temp_data w2 = temp_data w
    ∧ csv_file w1
      = append_rows (csv_file w) (make_fieldnames (temp_data w)) rows1
    ∧ csv_file w2
      = append_rows (csv_file w1) (make_fieldnames (temp_data w)) rows2
    ∧ Forall2 (λ r1 r2, ∃ t1 t2 rest, r1 = t1 :: rest ∧ r2 = t2 :: rest)
              rows1 rows2.
Proof.
  destruct (snapshot_spec now1 w) as (w1 & Hrun1 & Htd1 & Hfile1).
  destruct (snapshot_spec now2 w1) as (w2 & Hrun2 & Htd2 & Hfile2).
  rewrite Htd1 in Hrun2, Htd2, Hfile2.
  exists w1, w2, (snapshot_rows (temp_data w) (snapshot_t_plus now1 w)),
    (snapshot_rows (temp_data w) (snapshot_t_plus now2 w1)).
  do 2 (split; [done|]). split.
  { intros Hnn. rewrite Hrun1, Hrun2.
    by rewrite snapshot_outcome_no_null by done. }
  repeat (split; [done|]).
  eapply Forall2_impl; [apply device_rows_same_but_t_plus|].
  intros r1 r2 (rest & -> & ->). eauto.
Qed.

Lemma C6_snapshot_twice_witness :
  ∃ w1 w2,
    print_temperature_readings 60000000 None
      (World [("AA:BB"%string, {[1 := Some 63.2%float]})]
         ∅ true (Some "AA:BB"%string) (Some 0) None [])
    = (Returns tt, w1)
    ∧ print_temperature_readings 120000000 None w1 = (Returns tt, w2)
    ∧ temp_data w2 = [("AA:BB"%string, {[1 := Some 63.2%float]})].
Proof.
  destruct (C6_snapshot_twice
    (World [("AA:BB"%string, {[1 := Some 63.2%float]})]
       ∅ true (Some "AA:BB"%string) (Some 0) None [])
    60000000 120000000)
    as (w1 & w2 & rows1 & rows2 & _ & _ & Hok & _ & Htd2 & _).
  destruct Hok as [Hrun1 Hrun2].
  { repeat constructor. apply map_Forall_singleton. by eexists. }
  exists w1, w2. split; [exact Hrun1|]. split; [exact Hrun2|]. exact Htd2.
Defined.

(** ** What a scan does to the store *)

Lemma apply_updates_app us1 us2 td :
  apply_updates (us1 ++ us2) td = apply_updates us2 (apply_updates us1 td).
Proof. unfold apply_updates. apply foldl_app. Qed.

Lemma advertisement_updates_cons ad ads :
  advertisement_updates (ad :: ads)
  = advertisement_updates [ad] ++ advertisement_updates ads.
Proof. unfold advertisement_updates. simpl. by rewrite app_nil_r. Qed.

Lemma temp_data_process_advertisement ad w :
  temp_data (process_advertisement ad w).2
  = apply_updates (advertisement_updates [ad]) (temp_data w).
Proof.
  unfold advertisement_updates. simpl. rewrite app_nil_r.
  unfold process_advertisement, bind, modify, gets, raise, ret. simpl.
  destruct (decode_error ad); [done|]. simpl.
  by destruct (_ && _).
Qed.

(** The callbacks contain every [Exception] of the decoder. *)
Lemma process_advertisement_outcome ad w :
  (process_advertisement ad w).1 = Returns tt
  ∨ ∃ msg, (process_advertisement ad w).1 = Raises (Exception msg).
Proof.
  unfold process_advertisement, bind, modify, gets, raise, ret. simpl.
  destruct (decode_error ad) as [msg|]; simpl; [by eauto|].
  left. by destruct (_ && _).
Qed.

Lemma discovery_callback_spec found_this_scan ad w :
  ∃ b' w', discovery_callback found_this_scan ad w = (Returns b', w')
           ∧ temp_data w'
             = apply_updates (advertisement_updates [ad]) (temp_data w).
Proof.
  pose proof (temp_data_process_advertisement ad w) as Htd.
  unfold discovery_callback, try_except_Exception, bind at 1.
  destruct (process_advertisement_outcome ad w) as [Hr|[msg Hr]];
    destruct (process_advertisement ad w) as [r w1]; simpl in *; subst r.
  - unfold bind, gets, ret. simpl. eauto.
  - unfold bind, logger_error, modify, ret. simpl. eauto.
Qed.

Lemma deliver_discovery ads found_this_scan w :
  ∃ b' w', deliver ads discovery_callback found_this_scan w = (Returns b', w')
           ∧ temp_data w'
             = apply_updates (advertisement_updates ads) (temp_data w).
Proof.
  revert found_this_scan w.
  induction ads as [|ad ads IH]; intros b w; simpl; [by eauto|].
  unfold bind.
  destruct (discovery_callback_spec b ad w) as (b1 & w1 & -> & Htd1).
  destruct (IH b1 w1) as (b2 & w2 & -> & Htd2).
  exists b2, w2. split; [done|].
  rewrite Htd2, Htd1, <- apply_updates_app. f_equal.
  unfold advertisement_updates. simpl. by rewrite app_nil_r.
Qed.

Lemma monitoring_callback_spec a ad w :
  ∃ w', monitoring_callback a tt ad w = (Returns tt, w')
        ∧ temp_data w'
          = apply_updates
              (advertisement_updates
                 (filter (λ ad, Some (address ad) = a) [ad]))
              (temp_data w).
Proof.
  unfold monitoring_callback, try_except_Exception.
  rewrite filter_cons, filter_nil.
  destruct (decide (Some (address ad) = a)) as [Ha|Ha].
  - rewrite bool_decide_eq_true_2 by done.
    pose proof (temp_data_process_advertisement ad w) as Htd.
    destruct (process_advertisement_outcome ad w) as [Hr|[msg Hr]];
      destruct (process_advertisement ad w) as [r w1]; simpl in *; subst r.
    + eauto.
    + unfold logger_error, modify. simpl. eauto.
  - rewrite bool_decide_eq_false_2 by done. unfold ret. eauto.
Qed.

Lemma deliver_monitoring a ads w :
  ∃ w', deliver ads (monitoring_callback a) tt w = (Returns tt, w')
        ∧ temp_data w'
          = apply_updates
              (advertisement_updates
                 (filter (λ ad, Some (address ad) = a) ads))
              (temp_data w).
Proof.
  revert w. induction ads as [|ad ads IH]; intros w; simpl; [by eauto|].
  unfold bind.
  destruct (monitoring_callback_spec a ad w) as (w1 & -> & Htd1).
  destruct (IH w1) as (w2 & -> & Htd2).
  exists w2. split; [done|]. rewrite Htd2, Htd1, <- apply_updates_app.
  f_equal. rewrite !filter_cons, filter_nil.
  destruct (decide _); [|done].
  unfold advertisement_updates. simpl. by rewrite app_nil_r.
Qed.

Lemma temp_data_scan_for_devices sc w :
  temp_data (scan_for_devices sc w).2
  = apply_updates (advertisement_updates (scan_delivered sc)) (temp_data w).
Proof.
  unfold scan_for_devices, bind at 1, modify at 1, try_except_Exception.
  destruct sc as [ads|e|ads e]; simpl; unfold bind at 1.
  - destruct (deliver_discovery ads false (set_processed_devices ∅ w))
      as (b & w' & -> & Htd). done.
  - unfold raise. by destruct e.
  - unfold bind at 1.
    destruct (deliver_discovery ads false (set_processed_devices ∅ w))
      as (b & w' & -> & Htd). unfold raise. by destruct e.
Qed.

Lemma scan_for_devices_error sc msg w :
  scan_error sc = Some (Exception msg) →
  ∃ w', scan_for_devices sc w = (Returns false, w')
        ∧ temp_data w'
          = apply_updates (advertisement_updates (scan_delivered sc))
              (temp_data w)
        ∧ last (error_log w')
          = Some ("Error during BLE scanning: " +:+ msg)%string.
Proof.
  intros Herr.
  unfold scan_for_devices, bind at 1, modify at 1, try_except_Exception.
  destruct sc as [ads|e|ads e]; simpl in Herr; simplify_eq; simpl;
    unfold bind at 1.
  - unfold raise, bind, logger_error, modify, ret. simpl.
    eexists. split; [reflexivity|]. split; [reflexivity|]. apply last_snoc.
  - unfold bind at 1.
    destruct (deliver_discovery ads false (set_processed_devices ∅ w))
      as (b & w' & Hd & Htd). rewrite Hd.
    unfold raise, bind, logger_error, modify, ret. simpl.
    eexists. split; [reflexivity|]. split; [exact Htd|]. apply last_snoc.
Qed.

Lemma scan_specific_device_outcome a sc w :
  ∃ r w', scan_specific_device a sc w = (r, w')
          ∧ temp_data w'
            = apply_updates
                (advertisement_updates
                   (filter (λ ad, Some (address ad) = a) (scan_delivered sc)))
                (temp_data w)
          ∧ match scan_error sc with
            | None => r = Returns tt
            | Some (Exception msg) =>
                r = Returns tt
                ∧ last (error_log w')
                  = Some ("Error during BLE scanning: " +:+ msg)%string
            | Some KeyboardInterrupt => r = Raises KeyboardInterrupt
            end.
Proof.
  unfold scan_specific_device, try_except_Exception.
  destruct sc as [ads|e|ads e]; simpl.
  - destruct (deliver_monitoring a ads w) as (w' & -> & Htd). eauto.
  - unfold raise. destruct e as [msg|]; simpl.
    + eexists _, _. split; [reflexivity|]. split; [done|]. split; [done|].
      apply last_snoc.
    + eauto.
  - unfold bind.
    destruct (deliver_monitoring a ads w) as (w' & -> & Htd).
    unfold raise. destruct e as [msg|]; simpl.
    + eexists _, _. split; [reflexivity|]. split; [done|]. split; [done|].
      apply last_snoc.
    + eauto.
Qed.

(** C9, as stated, fails: a monitoring cycle whose scanner raises when it is
    stopped keeps the readings of the advertisements it had delivered. *)
Lemma C9_failed_cycle_keeps_readings :
  ¬ (∀ a sc msg w,
       scan_error sc = Some (Exception msg) →
       temp_data (scan_specific_device a sc w).2 = temp_data w).
Proof.
  intros H.
  specialize (H (Some "AA:BB"%string)
    (ScanFailsToStop
       [Advertisement "AA:BB"
          [TempProbeWithAlarm (Some 63.2%float) None 1 None] None
          (Some "H5055"%string)]
       (Exception "stop failed"))
    "stop failed"%string (initial_world None) eq_refl).
  vm_compute in H. discriminate H.
Qed.

(** ** Scan errors and the main loop *)

Lemma step_searching_error st sc msg now oe :
  run_phase st = Searching →
  scan_error sc = Some (Exception msg) →
  run_phase (step st (CycleInput sc now oe))
  = if found_h5055 (run_world st) then Monitoring else Searching.
Proof.
  intros Hph Herr. unfold step. rewrite Hph. simpl.
  destruct (found_h5055 (run_world st)); [done|].
  unfold bind.
  by destruct (scan_for_devices_error sc msg (run_world st) Herr)
    as (w' & -> & _).
Qed.

Lemma step_monitoring_error st sc msg now :
  run_phase st = Monitoring →
  scan_error sc = Some (Exception msg) →
  run_phase (step st (CycleInput sc now None))
  = if decide (no_null_reading
                 (store_after_scan (h5055_address (run_world st)) sc
                    (temp_data (run_world st))))
    then Monitoring else Stopped 1.
Proof.
  intros Hph Herr. unfold step. rewrite Hph. simpl.
  unfold bind at 1, modify at 1. unfold bind at 1, gets at 1.
  unfold bind at 1.
  destruct (scan_specific_device_outcome
              (h5055_address (set_processed_devices ∅ (run_world st))) sc
              (set_processed_devices ∅ (run_world st)))
    as (r & w' & -> & Htd & Hr).
  rewrite Herr in Hr. destruct Hr as [-> _].
  unfold bind at 1. rewrite print_temperature_readings_ok.
  unfold snapshot_outcome, store_after_scan. simpl in Htd. rewrite Htd.
  by destruct (decide _).
Qed.

(** C9, amended: an [Exception] of the scanning facility is caught and
    logged.  A discovery attempt then returns false and the scan of a
    monitoring cycle returns normally; in both, the readings of the
    advertisements delivered before the error stay merged into the store,
    and nothing else is merged, so the store is left as it was when the
    scanner failed before delivering anything.  The scan error does not
    stop the run: a discovery iteration ends in [Searching], and a
    monitoring iteration goes on to its snapshot; with a file that can be
    opened it ends in [Monitoring] when the merged store holds no null
    reading, and in [Stopped 1] when it holds one, which the snapshot
    cannot format. *)
Theorem C9_scan_errors_are_contained (sc : scan) (msg : string) :
  scan_error sc = Some (Exception msg) →
  (∀ w, ∃ w',
     scan_for_devices sc w = (Returns false, w')
     ∧ temp_data w'
       = apply_updates (advertisement_updates (scan_delivered sc))
           (temp_data w)
     ∧ last (error_log w')
       = Some ("Error during BLE scanning: " +:+ msg)%string)
  ∧ (∀ a w, ∃ w',
       scan_specific_device a sc w = (Returns tt, w')
       ∧ temp_data w'
         = apply_updates
             (advertisement_updates
                (filter (λ ad, Some (address ad) = a) (scan_delivered sc)))
             (temp_data w)
       ∧ last (error_log w')
         = Some ("Error during BLE scanning: " +:+ msg)%string)
  ∧ (scan_delivered sc = [] →
     ∀ a w, temp_data (scan_for_devices sc w).2 = temp_data w
            ∧ temp_data (scan_specific_device a sc w).2 = temp_data w)
  ∧ (∀ st now oe,
       run_phase st = Searching → found_h5055 (run_world st) = false →
       run_phase (step st (CycleInput sc now oe)) = Searching)
  ∧ (∀ st now,
       run_phase st = Monitoring →
       run_phase (step st (CycleInput sc now None))
       = if decide (no_null_reading
                      (store_after_scan (h5055_address (run_world st)) sc
                         (temp_data (run_world st))))
         then Monitoring else Stopped 1).
Proof.
  intros Herr.
  assert (∀ a w, ∃ w',
       scan_specific_device a sc w = (Returns tt, w')
       ∧ temp_data w'
         = apply_updates
             (advertisement_updates
                (filter (λ ad, Some (address ad) = a) (scan_delivered sc)))
             (temp_data w)
       ∧ last (error_log w')
         = Some ("Error during BLE scanning: " +:+ msg)%string) as Hspecific.
  { intros a w.
    destruct (scan_specific_device_outcome a sc w) as (r & w' & -> & Htd & Hr).
    rewrite Herr in Hr. destruct Hr as [-> Hlog]. eauto. }
  split; [intros w; by apply scan_for_devices_error|].
  split; [done|]. split; [|split].
  - intros Hnil a w. rewrite temp_data_scan_for_devices.
    destruct (Hspecific a w) as (w' & -> & Htd & _). simpl.
    by rewrite Htd, Hnil.
  - intros st now oe Hph Hfound.
    by rewrite (step_searching_error _ _ msg), Hfound.
  - intros st now Hph. by apply (step_monitoring_error _ _ msg).
Qed.

(** A scanner that fails when stopped, after one advertisement. *)
Lemma C9_scan_errors_are_contained_witness :
  ∃ w',
    scan_for_devices
      (ScanFailsToStop
         [Advertisement "CC:DD" [TempProbe 21.5 1] None (Some "H5075"%string)]
         (Exception "stop failed"))
      (initial_world None)
    = (Returns false, w')
    ∧ temp_data w' = [("CC:DD"%string, {[1 := Some 21.5%float]})]
    ∧ error_log w' = ["Error during BLE scanning: stop failed"%string].
Proof.
  destruct (proj1 (C9_scan_errors_are_contained
    (ScanFailsToStop
       [Advertisement "CC:DD" [TempProbe 21.5 1] None (Some "H5075"%string)]
       (Exception "stop failed"))
    "stop failed" eq_refl) (initial_world None)) as (w' & Hrun & Htd & Hlog).
  exists w'. split; [exact Hrun|].
  vm_compute in Hrun. injection Hrun as <-. split; reflexivity.
Defined.

(** ** The lock *)

#[global] Instance keeps_address_preorder a : PreOrder (keeps_address a).
Proof.
  split.
  - intros w H. exact H.
  - intros w1 w2 w3 H12 H23 H1. by apply H23, H12.
Qed.

#[global] Instance found_stays_preorder : PreOrder found_stays.
Proof.
  split.
  - intros w H. exact H.
  - intros w1 w2 w3 H12 H23 H1. by apply H23, H12.
Qed.

#[global] Instance found_has_address_preorder : PreOrder found_has_address.
Proof.
  split.
  - intros w H. exact H.
  - intros w1 w2 w3 H12 H23 H1. by apply H23, H12.
Qed.

Lemma process_advertisement_found_stays ad :
  preserves found_stays (process_advertisement ad).
Proof.
  apply preserves_process_advertisement; try apply _;
    unfold preserves, found_stays; simpl; auto.
Qed.

Lemma discovery_callback_found b ad w b' w' :
  discovery_callback b ad w = (Returns b', w') →
  (b = true → found_h5055 w = true) →
  b' = true → found_h5055 w' = true.
Proof.
  pose proof (process_advertisement_found_stays ad w) as Hmono.
  unfold discovery_callback, try_except_Exception, bind at 1.
  destruct (process_advertisement ad w) as [[[]|[msg|]] w1]; simpl in *.
  - unfold bind, gets, ret. simpl. intros [= <- <-] Hb Hb'.
    destruct (found_h5055 w1) eqn:Hf; [done|]. rewrite <- Hf. auto.
  - unfold bind, logger_error, modify, ret. simpl. intros [= <- <-] Hb Hb'.
    simpl. auto.
  - done.
Qed.

Lemma deliver_found ads b w b' w' :
  deliver ads discovery_callback b w = (Returns b', w') →
  (b = true → found_h5055 w = true) →
  b' = true → found_h5055 w' = true.
Proof.
  revert b w. induction ads as [|ad ads IH]; intros b w; simpl.
  - unfold ret. intros [= <- <-]. auto.
  - unfold bind.
    destruct (discovery_callback_spec b ad w) as (b1 & w1 & Hcb & _).
    rewrite Hcb. intros Hrest Hb. eapply IH; [exact Hrest|].
    by eapply discovery_callback_found.
Qed.

Lemma scan_for_devices_found sc w w' :
  scan_for_devices sc w = (Returns true, w') → found_h5055 w' = true.
Proof.
  unfold scan_for_devices, bind at 1, modify at 1, try_except_Exception.
  destruct sc as [ads|e|ads e]; simpl; unfold bind at 1.
  - destruct (deliver ads discovery_callback false _) as [[b|e] w1] eqn:Hd.
    + unfold bind, gets, ret. simpl. intros [= Hor <-].
      apply orb_true_iff in Hor as [->|?]; [|done].
      by eapply deliver_found.
    + destruct (deliver_discovery ads false (set_processed_devices ∅ w))
        as (? & ? & Hd' & _). congruence.
  - unfold raise, bind, logger_error, modify, ret. by destruct e.
  - unfold bind at 1.
    destruct (deliver ads discovery_callback false _) as [[b|e'] w1];
      unfold raise, bind, logger_error, modify, ret.
    + by destruct e.
    + by destruct e'.
Qed.

Lemma bind_Returns_inv {A B} (m : M A) (k : A → M B) w b w' :
  bind m k w = (Returns b, w') →
  ∃ a w1, m w = (Returns a, w1) ∧ k a w1 = (Returns b, w').
Proof.
  unfold bind. destruct (m w) as [[a|e] w1]; [by eauto|done].
Qed.

Lemma main_loop_handlers_count count r :
  scan_count (main_loop_handlers count r) = count.
Proof. by destruct r as [[?|[?|]] ?]. Qed.

Lemma main_loop_handlers_phase count r :
  match r.1 with
  | Returns ph' => run_phase (main_loop_handlers count r) = ph'
  | Raises e => ∃ c, run_phase (main_loop_handlers count r) = Stopped c
  end.
Proof. destruct r as [[?|[?|]] ?]; simpl; eauto. Qed.

Lemma same_keeps_address a w w' :
  same h5055_address w w' → keeps_address a w w'.
Proof. unfold same, keeps_address. congruence. Qed.

(** Side conditions on setters that do not touch the component at hand. *)
Ltac frame_setter :=
  try apply _;
  unfold preserves, keeps_address, same, found_stays, found_has_address;
  simpl; intros; auto.

(** One iteration of the monitoring loop. *)
Lemma step_monitoring st inp :
  run_phase st = Monitoring →
  (run_phase (step st inp) = Monitoring
   ∨ ∃ c, run_phase (step st inp) = Stopped c)
  ∧ scan_count (step st inp) = scan_count st
  ∧ h5055_address (run_world (step st inp)) = h5055_address (run_world st).
Proof.
  intros Hph. unfold step. rewrite Hph.
  split; [|split; [apply main_loop_handlers_count|]].
  - match goal with |- context [main_loop_handlers ?c ?r] =>
      pose proof (main_loop_handlers_phase c r) as Hr;
      destruct r as [[ph'|e] w'] eqn:Hbody end; simpl in Hr; [|by right].
    left. simpl.
    apply bind_Returns_inv in Hbody as (? & ? & _ & Hbody).
    apply bind_Returns_inv in Hbody as (? & ? & _ & Hbody).
    apply bind_Returns_inv in Hbody as (? & ? & _ & Hbody).
    apply bind_Returns_inv in Hbody as (? & ? & _ & Hbody).
    unfold ret in Hbody. congruence.
  - unfold bind at 1, modify at 1. unfold bind at 1, gets at 1.
    change (h5055_address (set_processed_devices ∅ (run_world st)))
      with (h5055_address (run_world st)).
    set (w0 := set_processed_devices ∅ (run_world st)).
    change (h5055_address (run_world st)) with (h5055_address w0).
    destruct (h5055_address w0) as [a|] eqn:Ha.
    + eapply (main_loop_handlers_preserve (keeps_address a));
        [frame_setter| |done].
      apply preserves_bind; [apply _| |].
      { apply preserves_scan_specific_device_when; frame_setter. }
      intros _.
      apply preserves_bind; [apply _| |by intros; apply preserves_ret, _].
      intros w. apply same_keeps_address.
      by apply print_temperature_readings_same.
    + transitivity (h5055_address w0); [|done].
      eapply (main_loop_handlers_preserve (same h5055_address));
        [frame_setter|].
      apply preserves_bind; [apply _| |].
      { apply preserves_scan_specific_device_None; frame_setter. }
      intros _.
      apply preserves_bind; [apply _| |by intros; apply preserves_ret, _].
      by apply print_temperature_readings_same.
Qed.

Lemma step_stopped st inp c : run_phase st = Stopped c → step st inp = st.
Proof. intros Hph. unfold step. by rewrite Hph. Qed.

Lemma run_from_monitoring inputs st :
  (run_phase st = Monitoring ∨ ∃ c, run_phase st = Stopped c) →
  (run_phase (run inputs st) = Monitoring
   ∨ ∃ c, run_phase (run inputs st) = Stopped c)
  ∧ scan_count (run inputs st) = scan_count st
  ∧ h5055_address (run_world (run inputs st)) = h5055_address (run_world st).
Proof.
  unfold run. revert st.
  induction inputs as [|inp inputs IH]; intros st Hph; simpl; [done|].
  destruct Hph as [Hph|[c Hph]].
  - destruct (step_monitoring st inp Hph) as (Hph' & <- & <-). by apply IH.
  - rewrite (step_stopped _ _ c) by done. apply IH. eauto.
Qed.

Lemma print_temperature_readings_found_stays now oe :
  preserves found_stays (print_temperature_readings now oe).
Proof.
  intros w Hf. rewrite <- Hf.
  by apply (print_temperature_readings_same found_h5055).
Qed.

Lemma step_monitoring_found st inp :
  (run_phase st = Monitoring → found_h5055 (run_world st) = true) →
  run_phase (step st inp) = Monitoring →
  found_h5055 (run_world (step st inp)) = true.
Proof.
  intros Hinv. destruct (run_phase st) as [| |c] eqn:Hph.
  - unfold step. rewrite Hph.
    destruct (found_h5055 (run_world st)) eqn:Hf; [done|].
    unfold bind.
    destruct (scan_for_devices _ _) as [[[|]|[msg|]] w'] eqn:Hscan;
      simpl; try done.
    intros _. by eapply scan_for_devices_found.
  - intros _.
    assert (found_stays (run_world st) (run_world (step st inp))) as Hstays.
    { apply step_preserves; frame_setter.
      by apply print_temperature_readings_found_stays. }
    by apply Hstays, Hinv.
  - by rewrite (step_stopped _ _ c), Hph.
Qed.

Lemma run_monitoring_found inputs st :
  (run_phase st = Monitoring → found_h5055 (run_world st) = true) →
  run_phase (run inputs st) = Monitoring →
  found_h5055 (run_world (run inputs st)) = true.
Proof.
  unfold run. revert st.
  induction inputs as [|inp inputs IH]; intros st Hinv; simpl; [done|].
  apply IH. by apply step_monitoring_found.
Qed.

Lemma run_found_has_address inputs st :
  found_has_address (run_world st) (run_world (run inputs st)).
Proof.
  apply run_preserves; frame_setter.
  match goal with
  | Hinv : _ → is_Some (h5055_address ?w),
    Hf : found_h5055 (print_temperature_readings ?now ?oe ?w).2 = true |- _ =>
      rewrite (print_temperature_readings_same h5055_address now oe) by done;
      apply Hinv; rewrite <- Hf; symmetry;
      by apply (print_temperature_readings_same found_h5055)
  end.
Qed.

(** C8: once a run has left discovery for monitoring, the target has been
    found and its address recorded; from then on the run never goes back to
    searching, performs no further discovery scan ([scan_count] stays), and
    keeps the locked address. *)
Theorem C8_no_discovery_after_lock (file : option (list csv_line))
    (inputs later_inputs : list cycle_input) :
  let locked := run inputs (initial_state file) in
  let later := run later_inputs locked in
  run_phase locked = Monitoring →
  found_h5055 (run_world locked) = true
  ∧ is_Some (h5055_address (run_world locked))
  ∧ run_phase later ≠ Searching
  ∧ scan_count later = scan_count locked
  ∧ h5055_address (run_world later) = h5055_address (run_world locked).
Proof.
  intros locked later Hph.
  assert (found_h5055 (run_world locked) = true) as Hfound.
  { by apply run_monitoring_found. }
  split; [done|]. split.
  { by apply (run_found_has_address inputs (initial_state file)). }
  destruct (run_from_monitoring later_inputs locked) as (Hph' & Hc & Ha);
    [by left|].
  split; [|done]. fold later in Hph'.
  destruct Hph' as [->|[c ->]]; done.
Qed.

(** The run with a bystander: locked after one scan, still monitoring a
    cycle later, with the single discovery scan counted. *)
Lemma C8_no_discovery_after_lock_witness :
  run_phase (run (take 1 bystander_inputs) (initial_state None)) = Monitoring
  ∧ run_phase (run bystander_inputs (initial_state None)) ≠ Searching
  ∧ scan_count (run bystander_inputs (initial_state None)) = 1.
Proof.
  assert (run_phase (run (take 1 bystander_inputs) (initial_state None))
          = Monitoring) as Hlocked by reflexivity.
  split; [exact Hlocked|].
  destruct (C8_no_discovery_after_lock None (take 1 bystander_inputs)
              (drop 1 bystander_inputs) Hlocked) as (_ & _ & Hph & Hc & _).
  split; [exact Hph|]. etrans; [exact Hc|]. reflexivity.
Defined.

(** C10: a discovery scan merges the decoded readings of every
    advertisement it delivers into the store, whatever the address and the
    type of the device; so, after the lock, the store and the rows of each
    snapshot can hold devices other than the locked one, as in the run with
    a bystander. *)
Theorem C10_discovery_merges_every_device :
  (∀ sc w,
     temp_data (scan_for_devices sc w).2
     = apply_updates (advertisement_updates (scan_delivered sc)) (temp_data w))
  ∧ (let st := run bystander_inputs (initial_state None) in
     run_phase st = Monitoring
     ∧ h5055_address (run_world st) = Some "AA:BB"%string
     ∧ reading "CC:DD" 1 (temp_data (run_world st)) = Some (Some 21.5%float)
     ∧ csv_file (run_world st)
       = Some [HeaderLine ["t_plus"; "device"; "probe_1"]%string;
               RowLine ["0:01:00"; "CC:DD"; "21.5"]%string;
               RowLine ["0:01:00"; "AA:BB"; "63.2"]%string]).
Proof.
  split; [apply temp_data_scan_for_devices|].
  by vm_compute.
Qed.

(** * Further properties of the code *)

(** ** The store only grows *)

Section store_growth.
Implicit Types (dev : string) (p : Z) (td : store).

Lemma dict_set_elem_of {V} (k k' : string) (v v' : V) (d : list (string * V)) :
  (k', v') ∈ d →
  (k', v') ∈ Dict.set k v d
  ∨ (k' = k ∧ Dict.get k d = Some v' ∧ (k, v) ∈ Dict.set k v d).
Proof.
  induction d as [|[k0 v0] d IH]; simpl.
  - intros H. by apply elem_of_nil in H.
  - intros [Heq|Hin]%elem_of_cons.
    + injection Heq as -> ->. destruct (decide (k = k0)) as [->|Hne].
      * right. split; [done|]. split; [done|]. left.
      * left. left.
    + destruct (decide (k = k0)) as [->|Hne].
      * left. by right.
      * destruct (IH Hin) as [?|(-> & ? & ?)]; [left; by right|].
        right. split; [done|]. split; [done|]. by right.
Qed.

Lemma dict_keys_set {V} (k : string) (v : V) (d : list (string * V)) :
  (Dict.set k v d).*1 = if Dict.mem k d then d.*1 else d.*1 ++ [k].
Proof.
  unfold Dict.mem. induction d as [|[k' v'] d IH]; simpl; [done|].
  destruct (decide (k = k')) as [->|]; simpl; [done|].
  destruct (Dict.get k d); simpl; f_equal; exact IH.
Qed.

Lemma dict_mem_keys {V} (k : string) (d : list (string * V)) :
  Dict.mem k d = true ↔ k ∈ d.*1.
Proof.
  unfold Dict.mem. induction d as [|[k' v'] d IH]; simpl.
  - split; [done|]. intros H. by apply elem_of_nil in H.
  - rewrite elem_of_cons. destruct (decide (k = k')) as [->|Hne].
    + split; [by left|done].
    + rewrite IH. split; [by right|]. by intros [?|?].
Qed.

Lemma keys_ensure_device dev td :
  (ensure_device dev td).*1 = if Dict.mem dev td then td.*1 else td.*1 ++ [dev].
Proof.
  unfold ensure_device. destruct (Dict.mem dev td) eqn:Hm; [done|].
  by rewrite dict_keys_set, Hm.
Qed.

Lemma keys_store_probe dev p t td : (store_probe dev p t td).*1 = td.*1.
Proof.
  unfold store_probe. destruct (Dict.get dev td) as [probes|] eqn:Hg; [|done].
  rewrite dict_keys_set.
  assert (Dict.mem dev td = true) as -> by (apply DictFacts.mem_true; eauto).
  done.
Qed.

Lemma keys_apply_update dev u td :
  (apply_update dev u td).*1
  = if Dict.mem dev td then td.*1 else td.*1 ++ [dev].
Proof.
  rewrite apply_update_stores. unfold update_temp_probe.
  by rewrite keys_store_probe, keys_ensure_device.
Qed.

Lemma NoDup_keys_apply_update dev u td :
  NoDup td.*1 → NoDup (apply_update dev u td).*1.
Proof.
  intros Hnd. rewrite keys_apply_update.
  destruct (Dict.mem dev td) eqn:Hm; [done|].
  apply NoDup_app. split; [done|]. split; [|apply NoDup_singleton].
  intros x Hx ->%list_elem_of_singleton.
  apply dict_mem_keys in Hx. congruence.
Qed.

(** Every entry of the store survives an update, with at least the probes it
    had. *)
Lemma apply_update_elem_of dev u td dev' (probes : gmap Z (option float)) :
  (dev', probes) ∈ td →
  ∃ probes', (dev', probes') ∈ apply_update dev u td
             ∧ ∀ p, is_Some (probes !! p) → is_Some (probes' !! p).
Proof.
  assert (∀ td0, (dev', probes) ∈ td0 →
            (dev', probes) ∈ ensure_device dev td0) as Hens.
  { intros td0 Hin. unfold ensure_device.
    destruct (Dict.mem dev td0) eqn:Hm; [done|].
    destruct (dict_set_elem_of dev dev' ∅ probes td0 Hin)
      as [?|(-> & Hg & _)]; [done|].
    apply DictFacts.mem_false in Hm. congruence. }
  assert (∀ p t td0, (dev', probes) ∈ td0 →
            ∃ probes', (dev', probes') ∈ store_probe dev p t td0
                       ∧ ∀ q, is_Some (probes !! q) → is_Some (probes' !! q))
    as Hstore.
  { intros p t td0 Hin. unfold store_probe.
    destruct (Dict.get dev td0) as [probes0|] eqn:Hg; [|by eauto].
    destruct (dict_set_elem_of dev dev' (<[p:=t]> probes0) probes td0 Hin)
      as [?|(-> & Hg' & Hnew)]; [by eauto|].
    exists (<[p:=t]> probes0). split; [done|].
    intros q Hq. rewrite Hg in Hg'. injection Hg' as ->.
    rewrite lookup_insert. by case_decide. }
  intros Hin. rewrite apply_update_stores. by apply Hstore, Hens.
Qed.

Lemma collect_probe_ids_apply_update dev u td :
  collect_probe_ids td ⊆ collect_probe_ids (apply_update dev u td).
Proof.
  intros p (dev' & probes & Hin & Hp)%elem_of_collect_probe_ids.
  apply elem_of_collect_probe_ids.
  destruct (apply_update_elem_of dev u td dev' probes Hin)
    as (probes' & Hin' & Hsub).
  eauto.
Qed.

Lemma reading_is_Some_apply_update dev u td dev' p :
  is_Some (reading dev' p td) → is_Some (reading dev' p (apply_update dev u td)).
Proof.
  rewrite reading_apply_update. by case_bool_decide.
Qed.

Lemma get_is_Some_apply_update dev u td dev' :
  is_Some (Dict.get dev' td) → is_Some (Dict.get dev' (apply_update dev u td)).
Proof.
  rewrite <- !DictFacts.mem_true, !dict_mem_keys, keys_apply_update.
  destruct (Dict.mem dev td); [done|]. intros ?. apply elem_of_app. by left.
Qed.
End store_growth.

(** X1: updates never remove an entry from the store: a device that has an
    entry keeps one, and a (device, probe) pair that has an entry keeps
    one, whatever updates follow; the value of the entry can change, and
    can become null. *)
Theorem X1_store_never_shrinks (us : list (string * probe_update))
    (td : store) (dev : string) (p : Z) :
  (is_Some (Dict.get dev td) → is_Some (Dict.get dev (apply_updates us td)))
  ∧ (is_Some (reading dev p td) →
     is_Some (reading dev p (apply_updates us td))).
Proof.
  unfold apply_updates. revert td.
  induction us as [|[d u] us IH]; intros td; simpl; [done|].
  destruct (IH (apply_update d u td)) as [IHdev IHread]. split.
  - intros H. by apply IHdev, get_is_Some_apply_update.
  - intros H. by apply IHread, reading_is_Some_apply_update.
Qed.

(** A null alarm-bearing reading keeps the entry of the probe, with the
    null in the place of the earlier value. *)
Lemma X1_store_never_shrinks_witness :
  is_Some (reading "AA:BB" 1 [("AA:BB"%string, {[1 := Some 63.2%float]})])
  ∧ is_Some (reading "AA:BB" 1
       (apply_updates
          [("AA:BB"%string, TempProbeWithAlarm None None 1 None);
           ("CC:DD"%string, TempProbe 20.5 1)]
          [("AA:BB"%string, {[1 := Some 63.2%float]})]))
  ∧ reading "AA:BB" 1
      (apply_updates
         [("AA:BB"%string, TempProbeWithAlarm None None 1 None);
          ("CC:DD"%string, TempProbe 20.5 1)]
         [("AA:BB"%string, {[1 := Some 63.2%float]})])
    = Some None.
Proof.
  assert (is_Some (reading "AA:BB" 1 [("AA:BB"%string, {[1 := Some 63.2%float]})]))
    as H by (by eexists).
  split; [exact H|]. split; [|reflexivity].
  exact (proj2 (X1_store_never_shrinks _ _ _ _) H).
Defined.

(** X2: the store lists each device once, in the order in which the devices
    were first heard: an update for a known device leaves the order of the
    devices as it is, an update for a new device (even one whose reading is
    null) puts it last. *)
Theorem X2_devices_in_order_of_first_appearance :
  (∀ dev u (td : store),
     (apply_update dev u td).*1
     = if Dict.mem dev td then td.*1 else td.*1 ++ [dev])
  ∧ (∀ us : list (string * probe_update), NoDup (apply_updates us []).*1)
  ∧ (∀ (us : list (string * probe_update)) (td : store),
       td.*1 `prefix_of` (apply_updates us td).*1).
Proof.
  split; [apply keys_apply_update|]. split.
  - intros us. unfold apply_updates.
    assert (NoDup ([] : store).*1) as Hnil by constructor.
    revert Hnil. generalize ([] : store).
    induction us as [|[d u] us IH]; intros td Hnd; simpl; [done|].
    by apply IH, NoDup_keys_apply_update.
  - intros us. unfold apply_updates.
    induction us as [|[d u] us IH]; intros td; simpl; [done|].
    etrans; [|apply IH]. rewrite keys_apply_update.
    destruct (Dict.mem d td); [done|]. by apply prefix_app_r.
Qed.

(** X3: the probe ids seen in the store, and with them the columns of a
    snapshot, never go away: after any updates the set of probe ids contains
    the earlier one and the field names are at least as many. *)
Theorem X3_columns_never_shrink (us : list (string * probe_update))
    (td : store) :
  collect_probe_ids td ⊆ collect_probe_ids (apply_updates us td)
  ∧ (length (make_fieldnames td)
     ≤ length (make_fieldnames (apply_updates us td)))%nat.
Proof.
  assert (collect_probe_ids td ⊆ collect_probe_ids (apply_updates us td))
    as Hsub.
  { unfold apply_updates. revert td.
    induction us as [|[d u] us IH]; intros td; simpl; [done|].
    etrans; [apply (collect_probe_ids_apply_update d u)|apply IH]. }
  split; [done|]. rewrite !length_make_fieldnames.
  apply subseteq_size in Hsub. lia.
Qed.

(** X18: the last update wins.  After any sequence of updates, the entry
    of a (device, probe) pair holds the temperature of the last update
    reported for the pair, plain or alarm-bearing, positive or not, null or
    not; a pair for which nothing was reported keeps what it had. *)
Theorem X18_last_update_wins (us : list (string * probe_update)) (td : store)
    (dev : string) (p : Z) :
  reading dev p (apply_updates us td)
  = match last_reported dev p us with
    | Some temp => Some temp
    | None => reading dev p td
    end.
Proof.
  rewrite reading_apply_updates. by destruct (last_reported dev p us).
Qed.

(** ** Edge cases of a snapshot *)

Lemma for_each_no_readings open_error t_plus
    (l : list (string * gmap Z (option float))) w :
  (∀ dev probes, (dev, probes) ∈ l → probes = ∅) →
  for_each l (λ '(device_addr, probes),
     write_device_row open_error t_plus device_addr probes) w
  = (Returns tt, w).
Proof.
  induction l as [|[dev probes] l IH]; intros Hall; simpl; [done|].
  unfold bind. rewrite (Hall dev probes) by left.
  rewrite write_device_row_empty. apply IH.
  intros dev' probes' Hin. apply (Hall dev'). by right.
Qed.

Lemma write_device_row_open_error msg t_plus dev
    (probes : gmap Z (option float)) w :
  probes ≠ ∅ →
  null_free probes →
  write_device_row (Some msg) t_plus dev probes w = (Raises (Exception msg), w).
Proof.
  intros Hne Hnf. unfold write_device_row. rewrite decide_False by done.
  unfold bind at 1. rewrite print_probes_ok by done.
  unfold bind at 1. by rewrite make_row_data_ok by done.
Qed.

Lemma for_each_open_error msg t_plus (l : list (string * gmap Z (option float))) w :
  (∃ dev probes, (dev, probes) ∈ l ∧ probes ≠ ∅) →
  ∃ e, for_each l (λ '(device_addr, probes),
         write_device_row (Some msg) t_plus device_addr probes) w
       = (Raises (Exception e), w)
       ∧ (Forall (λ dp : string * gmap Z (option float), null_free dp.2) l →
          e = msg).
Proof.
  induction l as [|[dev probes] l IH]; intros (dev' & probes' & Hin & Hne).
  - by apply elem_of_nil in Hin.
  - simpl. unfold bind. destruct (decide (probes = ∅)) as [->|Hne0].
    + rewrite write_device_row_empty.
      destruct IH as (e & Hrun & He).
      { apply elem_of_cons in Hin as [[= -> ->]|Hin]; [done|eauto]. }
      exists e. split; [done|]. intros Hall. apply He.
      by apply Forall_cons in Hall as [_ Hall].
    + destruct (decide (null_free probes)) as [Hnf|Hnf].
      * rewrite write_device_row_open_error by done. by exists msg.
      * rewrite write_device_row_null by done.
        exists type_error_message. split; [done|].
        intros [Hnf' _]%Forall_cons. by destruct Hnf.
Qed.

(** X4: when no device of the store has a reading (the store is empty, or
    its devices have no probe entry), a snapshot returns normally without
    touching the file: the file is not even created, and a file that could
    not be opened goes unnoticed. *)
Theorem X4_snapshot_without_readings (now : Z) (open_error : option string)
    (w : world) :
  (∀ dev probes, (dev, probes) ∈ temp_data w → probes = ∅) →
  ∃ w', print_temperature_readings now open_error w = (Returns tt, w')
        ∧ csv_file w' = csv_file w
        ∧ temp_data w' = temp_data w
        ∧ error_log w' = error_log w.
Proof.
  intros Hall. unfold print_temperature_readings.
  unfold bind at 1. unfold gets at 1.
  destruct (temp_data w) as [|dp td] eqn:Htd; [by eauto|].
  unfold bind, gets, modify, ret.
  destruct (monitoring_start_time w); rewrite for_each_no_readings by done;
    eexists; (split; [reflexivity|]); simpl; by rewrite ?Htd.
Qed.

(** A device without a probe entry, and the disk is not writable. *)
Lemma X4_snapshot_without_readings_witness :
  ∃ w',
    print_temperature_readings 1000000 (Some "Permission denied"%string)
      (World [("AA:BB"%string, ∅)] ∅ true (Some "AA:BB"%string) (Some 0)
         None [])
    = (Returns tt, w')
    ∧ csv_file w' = None.
Proof.
  destruct (X4_snapshot_without_readings 1000000
    (Some "Permission denied"%string)
    (World [("AA:BB"%string, ∅)] ∅ true (Some "AA:BB"%string) (Some 0)
       None []))
    as (w' & Hrun & Hfile & _).
  - intros dev probes [[= _ ->]|Hin]%elem_of_cons; [done|].
    by apply elem_of_nil in Hin.
  - exists w'. split; [exact Hrun|exact Hfile].
Defined.

Lemma print_temperature_readings_open_error (now : Z) (msg : string) (w : world)
    (dev : string) (probes : gmap Z (option float)) :
  (dev, probes) ∈ temp_data w →
  probes ≠ ∅ →
  ∃ e w', print_temperature_readings now (Some msg) w
          = (Raises (Exception e), w')
          ∧ (no_null_reading (temp_data w) → e = msg)
          ∧ csv_file w' = csv_file w
          ∧ temp_data w' = temp_data w
          ∧ error_log w' = error_log w.
Proof.
  intros Hin Hne. unfold print_temperature_readings.
  unfold bind at 1. unfold gets at 1.
  destruct (temp_data w) as [|dp td] eqn:Htd.
  { by apply elem_of_nil in Hin. }
  assert (∀ t_plus w0, ∃ e,
            for_each (dp :: td) (λ '(device_addr, probes),
              write_device_row (Some msg) t_plus device_addr probes) w0
            = (Raises (Exception e), w0)
            ∧ (no_null_reading (dp :: td) → e = msg)) as Hloop.
  { intros t_plus w0. apply for_each_open_error. eauto. }
  unfold bind, gets, modify, ret.
  destruct (monitoring_start_time w) as [s|]; cbv beta zeta;
    match goal with
    | |- context [for_each _ _ ?w0] =>
        destruct (Hloop (format_elapsed_time now (default now (Some s))) w0)
          as (e & Hrun & He) ||
        destruct (Hloop (format_elapsed_time now now) w0) as (e & Hrun & He)
    end;
    simpl default in Hrun; rewrite Hrun; exists e; eexists;
    (split; [reflexivity|]); (split; [exact He|]); simpl; by rewrite ?Htd.
Qed.

(** X5: when some device has a reading and the file cannot be opened, the
    snapshot raises before anything is written: the file and the store are
    as they were.  What it raises is the error of [open], unless the store
    holds a null reading. *)
Theorem X5_snapshot_open_failure (now : Z) (msg : string) (w : world)
    (dev : string) (probes : gmap Z (option float)) :
  (dev, probes) ∈ temp_data w →
  probes ≠ ∅ →
  ∃ e w', print_temperature_readings now (Some msg) w
          = (Raises (Exception e), w')
          ∧ (no_null_reading (temp_data w) → e = msg)
          ∧ csv_file w' = csv_file w
          ∧ temp_data w' = temp_data w
          ∧ error_log w' = error_log w.
Proof. by apply print_temperature_readings_open_error. Qed.

Lemma X5_snapshot_open_failure_witness :
  ∃ w',
    print_temperature_readings 1000000 (Some "Permission denied"%string)
      (World [("AA:BB"%string, {[1 := Some 63.2%float]})] ∅ true
         (Some "AA:BB"%string) (Some 0) None [])
    = (Raises (Exception "Permission denied"), w')
    ∧ csv_file w' = None.
Proof.
  destruct (X5_snapshot_open_failure 1000000 "Permission denied"
    (World [("AA:BB"%string, {[1 := Some 63.2%float]})] ∅ true
       (Some "AA:BB"%string) (Some 0) None [])
    "AA:BB" {[1 := Some 63.2%float]})
    as (e & w' & Hrun & He & Hfile & _).
  - left.
  - intros Hempty. apply (f_equal (λ m, m !! 1)) in Hempty.
    vm_compute in Hempty. discriminate Hempty.
  - rewrite He in Hrun.
    + exists w'. split; [exact Hrun|exact Hfile].
    + repeat constructor. apply map_Forall_singleton. by eexists.
Defined.

Lemma device_rows_devices td t_plus (l : list (string * gmap Z (option float))) :
  (λ cells : list string, cells !! 1%nat) <$> device_rows td t_plus l
  = Some <$> devices_with_readings l.
Proof.
  unfold device_rows, devices_with_readings.
  induction l as [|[dev probes] l IH]; simpl; [done|].
  destruct (decide (probes = ∅)); [done|]. simpl. by f_equal.
Qed.

Lemma device_rows_t_plus td t_plus (l : list (string * gmap Z (option float))) :
  Forall (λ cells : list string, cells !! 0%nat = Some t_plus)
         (device_rows td t_plus l).
Proof.
  unfold device_rows. induction l as [|[dev probes] l IH]; simpl;
    [constructor|].
  destruct (decide (probes = ∅)); [done|]. by constructor.
Qed.

(** X6: a snapshot whose file can be opened returns normally when the
    store holds no null reading, and raises a [TypeError] otherwise.  It
    appends one row per device that has a reading and comes before the
    first device with a null reading, in the order in which the devices
    were first heard; each row starts with the same elapsed time, carries
    the address of its device in second place and has exactly one cell per
    field name of this snapshot. *)
Theorem X6_rows_of_a_snapshot (now : Z) (w : world) :
  ∃ w' rows,
    print_temperature_readings now None w
    = (snapshot_outcome (temp_data w), w')
    ∧ (no_null_reading (temp_data w) →
       print_temperature_readings now None w = (Returns tt, w')
       ∧ (λ cells : list string, cells !! 1%nat) <$> rows
         = Some <$> devices_with_readings (temp_data w))
    ∧ (¬ no_null_reading (temp_data w) →
       print_temperature_readings now None w
       = (Raises (Exception type_error_message), w'))
    ∧ csv_file w'
      = append_rows (csv_file w) (make_fieldnames (temp_data w)) rows
    ∧ (λ cells : list string, cells !! 1%nat) <$> rows
      = Some <$> devices_with_readings (readable_prefix (temp_data w))
    ∧ Forall (λ cells : list string,
         cells !! 0%nat = Some (snapshot_t_plus now w)
         ∧ length cells = length (make_fieldnames (temp_data w))) rows.
Proof.
  destruct (snapshot_spec now w) as (w' & Hrun & _ & Hfile).
  exists w', (snapshot_rows (temp_data w) (snapshot_t_plus now w)).
  split; [done|]. split.
  { intros Hnn. rewrite Hrun, snapshot_outcome_no_null by done.
    split; [done|]. unfold snapshot_rows.
    rewrite readable_prefix_no_null by done. apply device_rows_devices. }
  split.
  { intros Hnn. rewrite Hrun. unfold snapshot_outcome.
    by rewrite decide_False. }
  split; [done|]. split; [apply device_rows_devices|].
  apply Forall_and. split; [apply device_rows_t_plus|apply device_rows_length].
Qed.

(** Two devices with readings, none of them null. *)
Lemma X6_rows_of_a_snapshot_witness :
  ∃ w' rows,
    print_temperature_readings 60000000 None
      (World [("CC:DD"%string, {[1 := Some 21.5%float]});
              ("AA:BB"%string, {[2 := Some 63.2%float]})]
         ∅ true (Some "AA:BB"%string) (Some 0) None [])
    = (Returns tt, w')
    ∧ (λ cells : list string, cells !! 1%nat) <$> rows
      = [Some "CC:DD"%string; Some "AA:BB"%string].
Proof.
  destruct (X6_rows_of_a_snapshot 60000000
    (World [("CC:DD"%string, {[1 := Some 21.5%float]});
            ("AA:BB"%string, {[2 := Some 63.2%float]})]
       ∅ true (Some "AA:BB"%string) (Some 0) None []))
    as (w' & rows & _ & Hok & _).
  destruct Hok as [Hrun Hrows].
  { repeat constructor; apply map_Forall_singleton; by eexists. }
  exists w', rows. split; [exact Hrun|].
  etrans; [exact Hrows|]. reflexivity.
Defined.

(** ** The elapsed time of a snapshot *)

Lemma format_elapsed_seconds_whole (x : Q) :
  (0 <= x)%Q → format_elapsed_seconds x = h_mm_ss (Qfloor x).
Proof.
  intros Hx.
  assert (0 <= Qfloor x) as Hn.
  { change 0 with (Qfloor 0). by apply Qfloor_resp_le. }
  unfold format_elapsed_seconds, h_mm_ss, float_mod, float_floordiv.
  rewrite !py_int_inject_Z.
  change 3600%Q with (Zpos 3600 # 1). change 60%Q with (Zpos 60 # 1).
  rewrite !Qfloor_div_pos, Qfloor_sub_mul.
  set (n := Qfloor x) in *.
  assert (0 <= n mod 3600 < 3600) as H3600 by (apply Z.mod_pos_bound; lia).
  assert (0 <= n mod 60 < 60) as H60 by (apply Z.mod_pos_bound; lia).
  assert (0 <= n / 60 mod 60 < 60) as Hmin by (apply Z.mod_pos_bound; lia).
  assert ((n - 3600 * (n / 3600)) / 60 = n / 60 mod 60) as ->.
  { change 3600 with (60 * 60). rewrite <- (Z.div_div n 60 60) by lia.
    symmetry. apply (Z.div_unique _ 60 _ (n mod 60)); [lia|].
    pose proof (Z.div_mod n 60). pose proof (Z.div_mod (n / 60) 60). lia. }
  rewrite py_int_floor; rewrite Qfloor_sub_mul; fold n.
  - replace (n - 60 * (n / 60)) with (n mod 60) by (rewrite Z.mod_eq; lia).
    by rewrite !format_02d_two_digits by lia.
  - rewrite <- Z.mod_eq by lia. lia.
Qed.

Lemma round_half_even_bounds num den :
  0 < den → 0 <= num →
  num / den <= round_half_even num den
  ∧ 2 * den * round_half_even num den <= 2 * num + den.
Proof.
  intros Hden Hnum. unfold round_half_even.
  pose proof (Z.div_mod num den ltac:(lia)) as Hdm.
  pose proof (Z.mod_pos_bound num den Hden) as Hmod.
  destruct (Z.compare_spec (2 * (num mod den)) den) as [Heq|Hlt|Hgt].
  - destruct (Z.even (num / den)); split; nia.
  - split; nia.
  - split; nia.
Qed.

(** With a significand unit of at most [2^-19] seconds, rounding cannot
    carry a count of microseconds over to the next whole second. *)
Lemma round_half_even_same_second a P :
  0 <= a → 524288 <= P →
  round_half_even (a * P) 1000000 / P = a / 1000000.
Proof.
  intros Ha HP.
  destruct (round_half_even_bounds (a * P) 1000000) as [Hlo Hhi]; [lia|nia|].
  set (m := round_half_even (a * P) 1000000) in *.
  pose proof (Z.div_mod a 1000000 ltac:(lia)) as Hdm.
  pose proof (Z.mod_pos_bound a 1000000 ltac:(lia)) as Hmod.
  set (k := a / 1000000) in *.
  assert (k * P <= a * P / 1000000) as Hk.
  { apply Z.div_le_lower_bound; nia. }
  symmetry. apply (Z.div_unique_pos _ _ _ (m - k * P)); nia.
Qed.

(** Below [2^34] seconds the binary exponent of the quotient is at most
    [-19]. *)
Lemma int_true_divide_micro_exponent a :
  0 < a < 2 ^ 34 * 1000000 →
  let s := Z.log2 a - Z.log2 1000000 in
  (if (if 0 <=? s then 1000000 * 2 ^ s <=? a else 1000000 <=? a * 2 ^ (- s))
   then s - 52 else s - 53) <= -19.
Proof.
  intros [Hpos Hlt]. change (Z.log2 1000000) with 19.
  assert (Z.log2 a < 54) as HL.
  { apply Z.log2_lt_pow2; [done|]. lia. }
  intros s. subst s. set (s := Z.log2 a - 19).
  destruct (Z.leb_spec 0 s) as [Hs|Hs].
  - destruct (Z.leb_spec (1000000 * 2 ^ s) a) as [Hge|Hlt']; [|lia].
    assert (s < 34); [|lia].
    apply (Z.pow_lt_mono_r_iff 2); lia.
  - destruct (1000000 <=? a * 2 ^ (- s)); lia.
Qed.

Lemma Qfloor_int_true_divide_micro n :
  0 <= n < 2 ^ 34 * 1000000 →
  (0 <= int_true_divide n 1000000)%Q
  ∧ Qfloor (int_true_divide n 1000000) = n / 1000000.
Proof.
  intros [Hpos Hlt]. unfold int_true_divide.
  destruct (Z.eqb_spec n 0) as [->|Hne]; [done|].
  rewrite Z.abs_eq by done.
  pose proof (int_true_divide_micro_exponent n ltac:(lia)) as He.
  cbv zeta in He.
  set (s := Z.log2 n - Z.log2 1000000) in *.
  set (e := if (if 0 <=? s then 1000000 * 2 ^ s <=? n
                else 1000000 <=? n * 2 ^ (- s))
            then s - 52 else s - 53) in *.
  destruct (Z.leb_spec 0 e) as [?|_]; [lia|].
  destruct (Z.ltb_spec n 0) as [?|_]; [lia|].
  assert (524288 <= 2 ^ (- e)) as HP.
  { change 524288 with (2 ^ 19). apply Z.pow_le_mono_r; lia. }
  destruct (round_half_even_bounds (n * 2 ^ (- e)) 1000000) as [Hlo _];
    [lia|nia|].
  assert (0 <= (n * 2 ^ (- e)) / 1000000) by (apply Z.div_pos; nia).
  split.
  - unfold Qle. simpl. lia.
  - unfold Qfloor. rewrite Z2Pos.id by lia.
    by apply round_half_even_same_second.
Qed.

(** X7: for a clock that has not gone back and less than [2^34] seconds
    (some 544 years) of monitoring, the elapsed time written in a row only
    depends on the whole seconds between the start of monitoring and the
    clock reading: [format_elapsed_time] gives [H:MM:SS] of the microsecond
    difference divided by a million, fraction dropped; the hours are not
    wrapped into days.  The bound is there because [total_seconds] rounds
    to binary64: from [2^34] seconds on, a fraction of 999999 microseconds
    is rounded up to the next second. *)
Theorem X7_elapsed_time_drops_fraction (now start_time : Z) :
  start_time <= now →
  now - start_time < 2 ^ 34 * 1000000 →
  format_elapsed_time now start_time
  = h_mm_ss ((now - start_time) / 1000000).
Proof.
  intros Hle Hlt. unfold format_elapsed_time, total_seconds.
  destruct (Qfloor_int_true_divide_micro (now - start_time)) as [Hpos Hfl];
    [lia|].
  by rewrite format_elapsed_seconds_whole, Hfl.
Qed.

(** Twenty-five hours and 999999 microseconds. *)
Lemma X7_elapsed_time_drops_fraction_witness :
  5 <= 90000999999 + 5
  ∧ format_elapsed_time (90000999999 + 5) 5 = "25:00:00"%string.
Proof.
  assert (5 <= 90000999999 + 5) as Hle by lia.
  split; [exact Hle|].
  exact (X7_elapsed_time_drops_fraction (90000999999 + 5) 5 Hle
           ltac:(reflexivity)).
Defined.

(** ** What a discovery scan finds *)

Lemma process_advertisement_lock ad w :
  nothing_processed w →
  let w' := (process_advertisement ad w).2 in
  found_h5055 w' = found_h5055 w || lockable ad
  ∧ nothing_processed w'
  ∧ lock_step [ad] w w'
  ∧ error_log w' = error_log w.
Proof.
  intros Hinv. unfold lockable, nothing_processed, lock_step in *.
  unfold process_advertisement, bind, modify, gets, raise, ret. simpl.
  assert (∀ ad0, ad0 = ad → decode_error ad = None →
            device_type ad = Some "H5055"%string →
            ad0 ∈ [ad]
            ∧ bool_decide (decode_error ad0 = None)
              && bool_decide (device_type ad0 = Some "H5055"%string) = true
            ∧ Some (address ad) = Some (address ad0)) as Hlocked.
  { intros ad0 -> Herr Hty. split; [left|].
    by rewrite !bool_decide_eq_true_2. }
  destruct (decode_error ad) as [msg|] eqn:Herr; simpl.
  { rewrite orb_false_r. split; [done|]. split; [done|]. split; [by left|done]. }
  case_bool_decide as Hty; simpl.
  - destruct (found_h5055 w) eqn:Hf.
    + case_bool_decide; simpl.
      * split; [done|]. split; [done|]. split; [|done]. right. eauto.
      * rewrite Hf. split; [done|]. split; [done|]. split; [by left|done].
    + rewrite Hinv by done. rewrite bool_decide_eq_true_2 by set_solver.
      simpl. split; [done|]. split; [done|]. split; [|done]. right. eauto.
  - rewrite orb_false_r. split; [done|]. split; [done|]. split; [by left|done].
Qed.

Lemma lock_step_trans ads1 ads2 w1 w2 w3 :
  lock_step ads1 w1 w2 → lock_step ads2 w2 w3 → lock_step (ads1 ++ ads2) w1 w3.
Proof.
  unfold lock_step.
  intros [[Hf1 Ha1]|(ad & Hin & Hl & Ha)] [[Hf2 Ha2]|(ad' & Hin' & Hl' & Ha')].
  - left. split; congruence.
  - right. exists ad'. rewrite elem_of_app. auto.
  - right. exists ad. rewrite elem_of_app. split; [auto|]. split; [done|].
    congruence.
  - right. exists ad'. rewrite elem_of_app. auto.
Qed.

Lemma discovery_callback_lock b ad w :
  nothing_processed w →
  ∃ b' w', discovery_callback b ad w = (Returns b', w')
           ∧ found_h5055 w' = found_h5055 w || lockable ad
           ∧ nothing_processed w'
           ∧ lock_step [ad] w w'
           ∧ error_log w'
             = error_log w ++ decode_error_messages [ad].
Proof.
  intros Hinv.
  destruct (process_advertisement_lock ad w Hinv) as (Hf & Hnp & Hls & Hlog).
  assert (match (process_advertisement ad w).1 with
          | Returns _ => decode_error ad = None
          | Raises e => ∃ msg, decode_error ad = Some msg ∧ e = Exception msg
          end) as Hout.
  { unfold process_advertisement, bind, modify, gets, raise, ret. simpl.
    destruct (decode_error ad) as [msg|]; simpl; [by eauto|].
    by destruct (_ && _). }
  unfold discovery_callback, try_except_Exception, bind at 1.
  unfold decode_error_messages. simpl.
  destruct (process_advertisement ad w) as [[[]|e] w1]; simpl in *.
  - rewrite Hout. simpl. rewrite app_nil_r.
    unfold bind, gets, ret. simpl. eexists _, _. split; [reflexivity|].
    done.
  - destruct Hout as (msg & -> & ->). simpl.
    unfold bind, logger_error, modify, ret. simpl.
    eexists _, _. split; [reflexivity|]. simpl. by rewrite Hlog.
Qed.

Lemma deliver_discovery_lock ads b w :
  nothing_processed w →
  ∃ b' w', deliver ads discovery_callback b w = (Returns b', w')
           ∧ found_h5055 w' = found_h5055 w || existsb lockable ads
           ∧ nothing_processed w'
           ∧ lock_step ads w w'
           ∧ error_log w' = error_log w ++ decode_error_messages ads.
Proof.
  revert b w. induction ads as [|ad ads IH]; intros b w Hinv; simpl.
  - exists b, w. unfold ret, lock_step. rewrite orb_false_r, app_nil_r.
    split; [done|]. split; [done|]. split; [done|]. split; [by left|done].
  - unfold bind.
    destruct (discovery_callback_lock b ad w Hinv)
      as (b1 & w1 & -> & Hf1 & Hinv1 & Hls1 & Hlog1).
    destruct (IH b1 w1 Hinv1) as (b2 & w2 & -> & Hf2 & Hinv2 & Hls2 & Hlog2).
    exists b2, w2. split; [done|]. split; [by rewrite Hf2, Hf1, orb_assoc|].
    split; [done|]. split; [by apply (lock_step_trans [ad] ads _ w1)|].
    rewrite Hlog2, Hlog1. unfold decode_error_messages. simpl.
    destruct (decode_error ad); simpl; by rewrite <- app_assoc.
Qed.

Lemma scan_for_devices_lock sc w :
  ∃ r w', scan_for_devices sc w = (r, w')
          ∧ found_h5055 w'
            = found_h5055 w || existsb lockable (scan_delivered sc)
          ∧ lock_step (scan_delivered sc) w w'
          ∧ match scan_error sc with
            | None =>
                r = Returns (found_h5055 w')
                ∧ error_log w'
                  = error_log w ++ decode_error_messages (scan_delivered sc)
            | Some (Exception msg) =>
                r = Returns false
                ∧ error_log w'
                  = error_log w ++ decode_error_messages (scan_delivered sc)
                    ++ ["Error during BLE scanning: " +:+ msg]%string
            | Some KeyboardInterrupt =>
                r = Raises KeyboardInterrupt
                ∧ error_log w'
                  = error_log w ++ decode_error_messages (scan_delivered sc)
            end.
Proof.
  unfold scan_for_devices, bind at 1, modify at 1, try_except_Exception.
  set (w0 := set_processed_devices ∅ w).
  assert (nothing_processed w0) as Hinv0 by done.
  assert (lock_step [] w w0) as Hls0 by (by left).
  destruct sc as [ads|e|ads e]; simpl; unfold bind at 1.
  - destruct (deliver ads discovery_callback false w0) as [r1 w1] eqn:Hd.
    destruct (deliver_discovery_lock ads false w0 Hinv0)
      as (b & w' & Hd' & Hf & _ & Hls & Hlog).
    rewrite Hd in Hd'. injection Hd' as -> ->.
    unfold bind, gets, ret. simpl. eexists _, _. split; [reflexivity|].
    split; [done|]. split; [exact Hls|]. split; [|done].
    f_equal. destruct b; [|done]. simpl. symmetry.
    by eapply deliver_found.
  - unfold raise. destruct e as [msg|]; simpl.
    + eexists _, _. split; [reflexivity|]. simpl.
      rewrite orb_false_r. split; [done|]. split; [by left|].
      split; [done|]. by rewrite ?app_nil_r.
    + eexists _, _. split; [reflexivity|]. simpl.
      rewrite orb_false_r, ?app_nil_r. split; [done|]. split; [by left|done].
  - unfold bind at 1.
    destruct (deliver_discovery_lock ads false w0 Hinv0)
      as (b & w' & -> & Hf & _ & Hls & Hlog).
    unfold raise. destruct e as [msg|]; simpl.
    + eexists _, _. split; [reflexivity|]. simpl.
      split; [done|]. split; [exact Hls|]. split; [done|].
      by rewrite Hlog, <- app_assoc.
    + eexists _, _. split; [reflexivity|]. split; [done|].
      split; [exact Hls|done].
Qed.

Lemma lock_step_none_lockable ads w w' :
  existsb lockable ads = false → lock_step ads w w' →
  h5055_address w' = h5055_address w.
Proof.
  intros Hnone [[_ Ha]|(ad & Hin & Hl & _)]; [done|].
  assert (existsb lockable ads = true); [|congruence].
  apply existsb_exists. exists ad. split; [|done]. by apply list_elem_of_In.
Qed.

Lemma lock_step_found ads w w' :
  found_h5055 w = false → found_h5055 w' = true → lock_step ads w w' →
  ∃ ad, ad ∈ ads ∧ lockable ad = true ∧ h5055_address w' = Some (address ad).
Proof. intros Hf Hf' [[Heq _]|?]; [congruence|done]. Qed.

(** X8: a discovery scan finds the target exactly when it hears an
    advertisement that decodes without error as an H5055.  The flag
    [found_h5055] afterwards is the flag before or-ed with that, also when
    the scanner fails; a scan that completes returns the flag; when the flag
    gets set, the recorded address is the address of such an advertisement
    heard in this scan; and when no such advertisement is heard, the
    recorded address is left as it was. *)
Theorem X8_discovery_finds_h5055 (sc : scan) (w : world) :
  let w' := (scan_for_devices sc w).2 in
  found_h5055 w' = found_h5055 w || existsb lockable (scan_delivered sc)
  ∧ (scan_error sc = None →
     (scan_for_devices sc w).1 = Returns (found_h5055 w'))
  ∧ (found_h5055 w = false → found_h5055 w' = true →
     ∃ ad, ad ∈ scan_delivered sc ∧ lockable ad = true
           ∧ h5055_address w' = Some (address ad))
  ∧ (existsb lockable (scan_delivered sc) = false →
     h5055_address w' = h5055_address w).
Proof.
  destruct (scan_for_devices_lock sc w) as (r & w' & -> & Hf & Hls & Hr).
  simpl. split; [done|]. split.
  { intros Herr. rewrite Herr in Hr. by destruct Hr. }
  split.
  - intros Hf0 Hf1. by eapply lock_step_found.
  - intros Hnone. by eapply lock_step_none_lockable.
Qed.

(** A bystander first, then the target. *)
Lemma X8_discovery_finds_h5055_witness :
  ∃ ad,
    ad ∈ [bystander_advertisement; target_advertisement]
    ∧ lockable ad = true
    ∧ h5055_address
        (scan_for_devices
           (ScanCompletes [bystander_advertisement; target_advertisement])
           (initial_world None)).2
      = Some (address ad).
Proof.
  exact (proj1 (proj2 (proj2 (X8_discovery_finds_h5055
    (ScanCompletes [bystander_advertisement; target_advertisement])
    (initial_world None)))) eq_refl eq_refl).
Defined.

(** ** Iterations of the discovery loop *)

Lemma scan_for_devices_same {X} (f : world → X) sc :
  (∀ msg w, f (logger_error msg w).2 = f w) →
  (∀ td w, f (set_temp_data td w) = f w) →
  (∀ s w, f (set_processed_devices s w) = f w) →
  (∀ a w, f (set_found a w) = f w) →
  preserves (same f) (scan_for_devices sc).
Proof.
  intros Hlog Htd Hproc Hfound.
  apply preserves_scan_for_devices; try apply _; done.
Qed.

(** X9: one iteration of the discovery loop, when the scan completes:
    [scan_count] goes up by one and the file is not touched; when an
    advertisement that decodes without error as an H5055 was heard, the loop
    is left for monitoring, the start of monitoring is the clock reading of
    that moment and the locked address is that of such an advertisement;
    otherwise the run keeps searching, with nothing found and no start of
    monitoring recorded. *)
Theorem X9_discovery_iteration (st : run_state) (ads : list advertisement)
    (now : Z) (open_error : option string) :
  run_phase st = Searching →
  found_h5055 (run_world st) = false →
  let st' := step st (CycleInput (ScanCompletes ads) now open_error) in
  scan_count st' = scan_count st + 1
  ∧ csv_file (run_world st') = csv_file (run_world st)
  ∧ (existsb lockable ads = true →
     run_phase st' = Monitoring
     ∧ monitoring_start_time (run_world st') = Some now
     ∧ ∃ ad, ad ∈ ads ∧ lockable ad = true
             ∧ h5055_address (run_world st') = Some (address ad))
  ∧ (existsb lockable ads = false →
     run_phase st' = Searching
     ∧ found_h5055 (run_world st') = false
     ∧ h5055_address (run_world st') = h5055_address (run_world st)
     ∧ monitoring_start_time (run_world st')
       = monitoring_start_time (run_world st)).
Proof.
  intros Hph Hf st'. subst st'. unfold step. rewrite Hph, Hf. simpl.
  pose proof (scan_for_devices_same csv_file (ScanCompletes ads)
                ltac:(done) ltac:(done) ltac:(done) ltac:(done)
                (run_world st)) as Hfile.
  pose proof (scan_for_devices_same monitoring_start_time (ScanCompletes ads)
                ltac:(done) ltac:(done) ltac:(done) ltac:(done)
                (run_world st)) as Hstart.
  unfold bind.
  destruct (scan_for_devices_lock (ScanCompletes ads) (run_world st))
    as (r & w' & Hscan & Hfound & Hls & -> & _).
  rewrite Hscan in *. simpl in *. rewrite Hf in Hfound. simpl in Hfound.
  rewrite Hfound.
  destruct (existsb lockable ads) eqn:Hex; simpl.
  - split; [done|]. split; [done|]. split; [|done]. intros _.
    split; [done|]. split; [done|].
    by apply (lock_step_found ads (run_world st)).
  - split; [done|]. split; [done|]. split; [done|]. intros _.
    split; [done|]. split; [done|]. split; [|done].
    by apply (lock_step_none_lockable ads).
Qed.

(** The first end-to-end scenario: the target is heard in the first scan. *)
Lemma X9_discovery_iteration_witness :
  run_phase
    (step (initial_state None)
       (CycleInput (ScanCompletes [target_advertisement]) 7000000 None))
  = Monitoring
  ∧ monitoring_start_time
      (run_world
         (step (initial_state None)
            (CycleInput (ScanCompletes [target_advertisement]) 7000000 None)))
    = Some 7000000.
Proof.
  destruct (X9_discovery_iteration (initial_state None)
              [target_advertisement] 7000000 None eq_refl eq_refl)
    as (_ & _ & Hfound & _).
  destruct (Hfound eq_refl) as (Hph & Hstart & _).
  split; [exact Hph|exact Hstart].
Defined.

Lemma step_still_searching st inp :
  run_phase (step st inp) = Searching →
  run_phase st = Searching
  ∧ scan_count (step st inp) = scan_count st + 1
  ∧ csv_file (run_world (step st inp)) = csv_file (run_world st)
  ∧ monitoring_start_time (run_world (step st inp))
    = monitoring_start_time (run_world st).
Proof.
  destruct (run_phase st) as [| |c] eqn:Hph.
  - unfold step. rewrite Hph.
    destruct (found_h5055 (run_world st)); [done|].
    pose proof (scan_for_devices_same csv_file (cycle_scan inp)
                  ltac:(done) ltac:(done) ltac:(done) ltac:(done)
                  (run_world st)) as Hfile.
    pose proof (scan_for_devices_same monitoring_start_time (cycle_scan inp)
                  ltac:(done) ltac:(done) ltac:(done) ltac:(done)
                  (run_world st)) as Hstart.
    unfold bind.
    by destruct (scan_for_devices _ _) as [[[|]|[msg|]] w'].
  - intros Hs. destruct (step_monitoring st inp Hph) as ([Hm|[c Hm]] & _);
      congruence.
  - rewrite (step_stopped _ _ c) by done. congruence.
Qed.

(** X10: as long as the run is still searching, every iteration so far was
    a discovery scan ([scan_count] counts them all), the output file has not
    been touched and no start of monitoring has been recorded. *)
Theorem X10_nothing_written_while_searching (inputs : list cycle_input)
    (st : run_state) :
  run_phase (run inputs st) = Searching →
  run_phase st = Searching
  ∧ scan_count (run inputs st) = scan_count st + Z.of_nat (length inputs)
  ∧ csv_file (run_world (run inputs st)) = csv_file (run_world st)
  ∧ monitoring_start_time (run_world (run inputs st))
    = monitoring_start_time (run_world st).
Proof.
  unfold run. revert st.
  induction inputs as [|inp inputs IH]; intros st; simpl.
  - intros ->. split; [done|]. split; [lia|done].
  - intros Hfinal. destruct (IH _ Hfinal) as (Hph1 & Hc & Hfile & Hstart).
    destruct (step_still_searching st inp Hph1) as (Hph & Hc1 & Hf1 & Hs1).
    split; [done|]. split; [lia|]. split; congruence.
Qed.

(** Two scans that hear only a bystander. *)
Lemma X10_nothing_written_while_searching_witness :
  scan_count
    (run [CycleInput (ScanCompletes [bystander_advertisement]) 0 None;
          CycleInput (ScanCompletes [bystander_advertisement]) 11000000 None]
       (initial_state None)) = 2
  ∧ csv_file
      (run_world
         (run [CycleInput (ScanCompletes [bystander_advertisement]) 0 None;
               CycleInput (ScanCompletes [bystander_advertisement]) 11000000
                 None]
            (initial_state None))) = None.
Proof.
  destruct (X10_nothing_written_while_searching
    [CycleInput (ScanCompletes [bystander_advertisement]) 0 None;
     CycleInput (ScanCompletes [bystander_advertisement]) 11000000 None]
    (initial_state None) eq_refl) as (_ & Hc & Hfile & _).
  split; [exact Hc|exact Hfile].
Defined.

(** ** Iterations of the monitoring loop *)

Lemma get_apply_update_other dev u (td : store) dev' :
  dev ≠ dev' → Dict.get dev' (apply_update dev u td) = Dict.get dev' td.
Proof.
  intros Hne.
  assert (∀ td0 : store, Dict.get dev' (ensure_device dev td0)
                         = Dict.get dev' td0) as Hens.
  { intros td0. unfold ensure_device. destruct (Dict.mem dev td0); [done|].
    by rewrite DictFacts.get_set_ne. }
  assert (∀ p t (td0 : store), Dict.get dev' (store_probe dev p t td0)
                               = Dict.get dev' td0) as Hstore.
  { intros p t td0. unfold store_probe. destruct (Dict.get dev td0); [|done].
    by rewrite DictFacts.get_set_ne. }
  rewrite apply_update_stores. unfold update_temp_probe.
  by rewrite Hstore, Hens.
Qed.

Lemma get_apply_updates_other us (td : store) dev' :
  Forall (λ du : string * probe_update, du.1 ≠ dev') us →
  Dict.get dev' (apply_updates us td) = Dict.get dev' td.
Proof.
  unfold apply_updates. revert td.
  induction us as [|[d u] us IH]; intros td Hall; simpl; [done|].
  apply Forall_cons in Hall as [Hne Hall]. simpl in Hne.
  by rewrite IH, get_apply_update_other.
Qed.

Lemma advertisement_updates_addresses (P : advertisement → Prop) ads :
  Forall P ads →
  Forall (λ du : string * probe_update, ∃ ad, P ad ∧ du.1 = address ad)
         (advertisement_updates ads).
Proof.
  unfold advertisement_updates. induction 1 as [|ad ads Had Hall IH]; simpl;
    [constructor|].
  apply Forall_app. split; [|done].
  apply Forall_fmap, Forall_forall. intros u _. simpl. eauto.
Qed.

Lemma step_monitoring_temp_data st inp :
  run_phase st = Monitoring →
  temp_data (run_world (step st inp))
  = apply_updates
      (advertisement_updates
         (filter (λ ad, Some (address ad) = h5055_address (run_world st))
                 (scan_delivered (cycle_scan inp))))
      (temp_data (run_world st)).
Proof.
  intros Hph. unfold step. rewrite Hph.
  unfold bind at 1, modify at 1. unfold bind at 1, gets at 1.
  set (w0 := set_processed_devices ∅ (run_world st)).
  change (h5055_address w0) with (h5055_address (run_world st)).
  unfold bind at 1.
  destruct (scan_specific_device_outcome (h5055_address (run_world st))
              (cycle_scan inp) w0) as (r & w' & -> & Htd & _).
  change (temp_data w0) with (temp_data (run_world st)) in Htd.
  rewrite <- Htd. destruct r as [[]|[msg|]]; [|done|done].
  etrans; [|exact (print_temperature_readings_same temp_data
                     (cycle_now inp) (cycle_open_error inp)
                     ltac:(done) ltac:(done) w')].
  unfold bind.
  by destruct (print_temperature_readings _ _ w') as [[[]|[msg|]] w''].
Qed.

(** X11: after the lock, the entries of every other device are frozen: no
    iteration of the monitoring loop changes the readings the store holds
    for a device whose address is not the locked one (they are written
    again, unchanged, in every snapshot). *)
Theorem X11_other_devices_frozen_after_lock (inputs : list cycle_input)
    (st : run_state) (a dev : string) :
  run_phase st = Monitoring →
  h5055_address (run_world st) = Some a →
  dev ≠ a →
  Dict.get dev (temp_data (run_world (run inputs st)))
  = Dict.get dev (temp_data (run_world st)).
Proof.
  intros Hph Ha Hne. unfold run.
  assert (run_phase st = Monitoring ∨ ∃ c, run_phase st = Stopped c) as Hph'
    by (by left).
  clear Hph. revert st Hph' Ha.
  induction inputs as [|inp inputs IH]; intros st Hph Ha; simpl; [done|].
  destruct Hph as [Hph|[c Hph]].
  - destruct (step_monitoring st inp Hph) as (Hph' & _ & Ha').
    rewrite IH by congruence.
    rewrite step_monitoring_temp_data by done.
    apply get_apply_updates_other.
    eapply Forall_impl.
    + apply (advertisement_updates_addresses
               (λ ad, Some (address ad) = h5055_address (run_world st))).
      apply Forall_forall. intros ad Hin.
      by apply list_elem_of_filter in Hin as [? _].
    + simpl. intros du (ad & Had & ->). rewrite Ha in Had. congruence.
  - rewrite (step_stopped _ _ c) by done. apply IH; eauto.
Qed.

(** The bystander heard during discovery keeps its reading while the target
    is monitored. *)
Lemma X11_other_devices_frozen_after_lock_witness :
  Dict.get "CC:DD" (temp_data (run_world (run bystander_inputs
                                            (initial_state None))))
  = Some {[1 := Some 21.5%float]}.
Proof.
  etrans.
  - apply (X11_other_devices_frozen_after_lock (drop 1 bystander_inputs)
             (run (take 1 bystander_inputs) (initial_state None))
             "AA:BB" "CC:DD"); [reflexivity|reflexivity|done].
  - reflexivity.
Defined.

#[global] Instance keeps_start_preorder s : PreOrder (keeps_start s).
Proof.
  split.
  - intros w H. exact H.
  - intros w1 w2 w3 H12 H23 H1. by apply H23, H12.
Qed.

Lemma same_keeps_start s w w' :
  same monitoring_start_time w w' → keeps_start s w w'.
Proof. unfold same, keeps_start. congruence. Qed.

Lemma print_temperature_readings_keeps_start s now open_error :
  preserves (keeps_start s) (print_temperature_readings now open_error).
Proof.
  intros w Hs. unfold print_temperature_readings.
  unfold bind at 1. unfold gets at 1.
  destruct (temp_data w) as [|dp td]; [done|].
  unfold bind at 1. unfold gets at 1. rewrite Hs.
  unfold bind at 1. unfold ret at 1.
  rewrite <- Hs.
  apply (preserves_for_each (same monitoring_start_time)).
  intros [dev probes]. by apply write_device_row_same.
Qed.

Ltac start_setter :=
  try apply _; unfold preserves, keeps_start, same; simpl; intros; auto.

Lemma step_monitoring_start st inp s :
  run_phase st = Monitoring →
  monitoring_start_time (run_world st) = Some s →
  monitoring_start_time (run_world (step st inp)) = Some s.
Proof.
  intros Hph Hs. unfold step. rewrite Hph.
  eapply (main_loop_handlers_preserve (keeps_start s)); [start_setter| |done].
  apply preserves_bind; [apply _|apply preserves_modify; start_setter|].
  intros _. apply preserves_bind; [apply _|apply preserves_gets, _|].
  intros a. apply preserves_bind; [apply _| |].
  { intros w. apply same_keeps_start.
    apply preserves_scan_specific_device; try apply _; done. }
  intros _. apply preserves_bind; [apply _| |by intros; apply preserves_ret, _].
  apply print_temperature_readings_keeps_start.
Qed.

(** X12: the start of monitoring is fixed for the rest of the run: no
    iteration of the monitoring loop, and no snapshot, changes
    [monitoring_start_time] once it is set, so every elapsed time is counted
    from the moment of the lock. *)
Theorem X12_monitoring_start_is_fixed (inputs : list cycle_input)
    (st : run_state) (s : Z) :
  run_phase st = Monitoring →
  monitoring_start_time (run_world st) = Some s →
  monitoring_start_time (run_world (run inputs st)) = Some s.
Proof.
  intros Hph Hs. unfold run.
  assert (run_phase st = Monitoring ∨ ∃ c, run_phase st = Stopped c) as Hph'
    by (by left).
  clear Hph. revert st Hph' Hs.
  induction inputs as [|inp inputs IH]; intros st Hph Hs; simpl; [done|].
  destruct Hph as [Hph|[c Hph]].
  - destruct (step_monitoring st inp Hph) as (Hph' & _).
    apply IH; [done|]. by apply step_monitoring_start.
  - rewrite (step_stopped _ _ c) by done. apply IH; eauto.
Qed.

Lemma X12_monitoring_start_is_fixed_witness :
  monitoring_start_time
    (run_world (run bystander_inputs (initial_state None))) = Some 0.
Proof.
  exact (X12_monitoring_start_is_fixed (drop 1 bystander_inputs)
           (run (take 1 bystander_inputs) (initial_state None)) 0
           eq_refl eq_refl).
Defined.

(** ** Errors in the loops *)

(** X13: the error records of a discovery scan are exactly these, in order:
    one per delivered advertisement whose decoding raised (the scan goes on
    with the next advertisement), then one for the scanner if it failed with
    an [Exception]. *)
Theorem X13_error_records_of_a_scan (sc : scan) (w : world) :
  error_log (scan_for_devices sc w).2
  = error_log w ++ decode_error_messages (scan_delivered sc)
    ++ match scan_error sc with
       | Some (Exception msg) =>
           ["Error during BLE scanning: " +:+ msg]%string
       | _ => []
       end.
Proof.
  destruct (scan_for_devices_lock sc w) as (r & w' & -> & _ & _ & Hr). simpl.
  destruct (scan_error sc) as [[msg|]|]; destruct Hr as [_ ->];
    by rewrite ?app_nil_r.
Qed.

Lemma apply_updates_elem_of us (td : store) dev (probes : gmap Z (option float)) :
  (dev, probes) ∈ td → probes ≠ ∅ →
  ∃ probes', (dev, probes') ∈ apply_updates us td ∧ probes' ≠ ∅.
Proof.
  unfold apply_updates. revert td probes.
  induction us as [|[d u] us IH]; intros td probes Hin Hne; simpl; [by eauto|].
  destruct (apply_update_elem_of d u td dev probes Hin)
    as (probes1 & Hin1 & Hsub).
  apply (IH _ probes1 Hin1). intros ->.
  apply Hne, map_empty. intros p.
  destruct (probes !! p) eqn:Hp; [|done].
  destruct (Hsub p) as [? Hp1]; [by eexists|]. by rewrite lookup_empty in Hp1.
Qed.

(** X14: an output file that cannot be opened ends the run.  When the store
    holds a reading and the scan of a monitoring iteration is not
    interrupted, the snapshot raises and the run stops with exit status 1;
    the exception is logged as an error of the main loop, and the file is as
    it was.  The exception is the failure of [open], unless the store that
    the snapshot reads holds a null reading. *)
Theorem X14_open_failure_stops_the_run (st : run_state) (sc : scan)
    (now : Z) (msg : string) (dev : string) (probes : gmap Z (option float)) :
  run_phase st = Monitoring →
  (dev, probes) ∈ temp_data (run_world st) →
  probes ≠ ∅ →
  scan_error sc ≠ Some KeyboardInterrupt →
  let st' := step st (CycleInput sc now (Some msg)) in
  run_phase st' = Stopped 1
  ∧ (∃ e, last (error_log (run_world st'))
          = Some ("Error in main loop: " +:+ e)%string
          ∧ (no_null_reading
               (store_after_scan (h5055_address (run_world st)) sc
                  (temp_data (run_world st))) →
             e = msg))
  ∧ csv_file (run_world st') = csv_file (run_world st).
Proof.
  intros Hph Hin Hne Hsc st'. subst st'. unfold step. rewrite Hph. simpl.
  match goal with |- context [main_loop_handlers _ ?b] => set (body := b) end.
  assert (∃ e w'', body = (Raises (Exception e), w'')
                   ∧ (no_null_reading
                        (store_after_scan (h5055_address (run_world st)) sc
                           (temp_data (run_world st))) →
                      e = msg)
                   ∧ csv_file w'' = csv_file (run_world st))
    as (e & w'' & -> & He & Hfile).
  { subst body. unfold bind at 1, modify at 1. unfold bind at 1, gets at 1.
    set (w0 := set_processed_devices ∅ (run_world st)).
    pose proof (preserves_scan_specific_device (same csv_file)
                  ltac:(done) ltac:(done) ltac:(done) ltac:(done)
                  (h5055_address w0) sc w0) as Hfile.
    unfold bind at 1.
    destruct (scan_specific_device_outcome (h5055_address w0) sc w0)
      as (r & w' & Hscan & Htd & Hr).
    rewrite Hscan in *. simpl in Hfile.
    assert (r = Returns tt) as ->.
    { destruct (scan_error sc) as [[?|]|]; [by destruct Hr|done|done]. }
    destruct (apply_updates_elem_of
                (advertisement_updates
                   (filter (λ ad, Some (address ad) = h5055_address w0)
                           (scan_delivered sc)))
                (temp_data w0) dev probes Hin Hne) as (probes' & Hin' & Hne').
    rewrite <- Htd in Hin'.
    destruct (print_temperature_readings_open_error now msg w' dev probes'
                Hin' Hne') as (e & w'' & Hprint & He & Hfile' & _ & _).
    unfold bind at 1. rewrite Hprint. exists e, w''. split; [done|].
    split; [|by rewrite Hfile', Hfile].
    intros Hnn. apply He. by rewrite Htd. }
  simpl. split; [done|]. split; [|done].
  exists e. split; [apply last_snoc|done].
Qed.

Lemma X14_open_failure_stops_the_run_witness :
  run_phase
    (step (run (take 1 bystander_inputs) (initial_state None))
       (CycleInput (ScanCompletes []) 60000000
          (Some "Permission denied"%string)))
  = Stopped 1
  ∧ last (error_log (run_world
       (step (run (take 1 bystander_inputs) (initial_state None))
          (CycleInput (ScanCompletes []) 60000000
             (Some "Permission denied"%string)))))
    = Some "Error in main loop: Permission denied"%string.
Proof.
  destruct (X14_open_failure_stops_the_run
    (run (take 1 bystander_inputs) (initial_state None))
    (ScanCompletes []) 60000000 "Permission denied"
    "AA:BB" {[1 := Some 63.2%float]}) as (Hph & (e & Hlog & He) & _).
  - reflexivity.
  - vm_compute. right. left.
  - intros Hempty. apply (f_equal (λ m, m !! 1)) in Hempty.
    vm_compute in Hempty. discriminate Hempty.
  - done.
  - split; [exact Hph|]. rewrite He in Hlog; [exact Hlog|].
    compute_done.
Defined.

(** X15: an interrupt raised while a scan is under way is not taken for a
    scanning error: it is not caught by the scan, it ends the run with exit
    status 0 without an error record of the main loop, and no snapshot is
    taken in that iteration, so the file is as it was. *)
Theorem X15_interrupt_stops_quietly (st : run_state) (sc : scan) (now : Z)
    (open_error : option string) :
  scan_error sc = Some KeyboardInterrupt →
  run_phase st = Monitoring
  ∨ (run_phase st = Searching ∧ found_h5055 (run_world st) = false) →
  let st' := step st (CycleInput sc now open_error) in
  run_phase st' = Stopped 0
  ∧ csv_file (run_world st') = csv_file (run_world st)
  ∧ (scan_delivered sc = [] →
     error_log (run_world st') = error_log (run_world st)).
Proof.
  intros Hsc Hph st'. subst st'. unfold step.
  assert (∃ w', (scan_specific_device
                   (h5055_address (set_processed_devices ∅ (run_world st)))
                   sc (set_processed_devices ∅ (run_world st)))
                = (Raises KeyboardInterrupt, w')
                ∧ csv_file w' = csv_file (run_world st)
                ∧ (scan_delivered sc = [] →
                   error_log w' = error_log (run_world st)))
    as (wm & Hmon & Hmfile & Hmlog).
  { set (w0 := set_processed_devices ∅ (run_world st)).
    pose proof (preserves_scan_specific_device (same csv_file)
                  ltac:(done) ltac:(done) ltac:(done) ltac:(done)
                  (h5055_address w0) sc w0) as Hfile.
    destruct (scan_specific_device _ sc w0) as [r w'] eqn:Hscan.
    exists w'. simpl in Hfile. split; [|split; [done|]].
    - destruct (scan_specific_device_outcome (h5055_address w0) sc w0)
        as (r' & w'' & Hscan' & _ & Hr).
      rewrite Hsc in Hr. congruence.
    - intros Hnil. revert Hscan.
      unfold scan_specific_device, try_except_Exception.
      destruct sc as [ads|e|ads e]; simplify_eq/=.
      + unfold raise. by intros [= _ <-].
      + unfold bind, ret, raise. by intros [= _ <-]. }
  destruct (scan_for_devices_lock sc (run_world st))
    as (r & w' & Hscan & _ & _ & Hr).
  rewrite Hsc in Hr. destruct Hr as [-> Hlog].
  pose proof (scan_for_devices_same csv_file sc
                ltac:(done) ltac:(done) ltac:(done) ltac:(done)
                (run_world st)) as Hfile.
  rewrite Hscan in Hfile. simpl in Hfile.
  destruct Hph as [Hph|[Hph Hf]]; rewrite Hph; simpl.
  - unfold bind at 1, modify at 1. unfold bind at 1, gets at 1.
    unfold bind at 1. rewrite Hmon. simpl.
    unfold bind at 1, modify at 1. unfold bind at 1, gets at 1.
    unfold bind at 1. rewrite Hmon. simpl.
    unfold bind at 1, modify at 1. unfold bind at 1, gets at 1.
    unfold bind at 1. rewrite Hmon. simpl. done.
  - rewrite Hf. unfold bind. rewrite Hscan. simpl.
    split; [done|]. split; [done|].
    intros Hnil. by rewrite Hlog, Hnil, app_nil_r.
Qed.

Lemma X15_interrupt_stops_quietly_witness :
  run_phase
    (step (initial_state None)
       (CycleInput (ScanFailsToStop [bystander_advertisement]
                      KeyboardInterrupt) 0 None))
  = Stopped 0.
Proof.
  destruct (X15_interrupt_stops_quietly (initial_state None)
    (ScanFailsToStop [bystander_advertisement] KeyboardInterrupt) 0 None
    eq_refl) as (Hph & _).
  - right. split; reflexivity.
  - exact Hph.
Defined.

(** ** A whole monitoring iteration *)

(** X16: one iteration of the monitoring loop whose scan is not interrupted
    and whose file can be opened: the readings decoded from the
    advertisements of the locked address, and only those, are merged into
    the store; then the snapshot of the store so updated appends its rows
    to the file, the elapsed time counted from the start of monitoring.
    When the updated store holds no null reading the run stays in the
    monitoring loop, also when the scanner failed; when it holds one, the
    snapshot raises and the run stops with exit status 1. *)
Theorem X16_monitoring_iteration (st : run_state) (sc : scan) (now s : Z) :
  run_phase st = Monitoring →
  monitoring_start_time (run_world st) = Some s →
  scan_error sc ≠ Some KeyboardInterrupt →
  let st' := step st (CycleInput sc now None) in
  let td' :=
    store_after_scan (h5055_address (run_world st)) sc
      (temp_data (run_world st)) in
  run_phase st' = (if decide (no_null_reading td') then Monitoring
                   else Stopped 1)
  ∧ temp_data (run_world st') = td'
  ∧ csv_file (run_world st')
    = append_rows (csv_file (run_world st)) (make_fieldnames td')
        (snapshot_rows td' (format_elapsed_time now s)).
Proof.
  intros Hph Hs Hsc st' td'. subst st'.
  assert (temp_data (run_world (step st (CycleInput sc now None))) = td')
    as Htd by (by apply step_monitoring_temp_data).
  unfold step in *. rewrite Hph in *. simpl in *. revert Htd.
  match goal with |- context [main_loop_handlers _ ?b] => set (body := b) end.
  assert (∃ w', body
                = (if decide (no_null_reading (temp_data w'))
                   then Returns Monitoring
                   else Raises (Exception type_error_message), w')
                ∧ csv_file w'
                  = append_rows (csv_file (run_world st))
                      (make_fieldnames (temp_data w'))
                      (snapshot_rows (temp_data w')
                         (format_elapsed_time now s)))
    as (w' & -> & Hfile).
  { subst body. unfold bind at 1, modify at 1. unfold bind at 1, gets at 1.
    set (w0 := set_processed_devices ∅ (run_world st)).
    pose proof (preserves_scan_specific_device (same csv_file)
                  ltac:(done) ltac:(done) ltac:(done) ltac:(done)
                  (h5055_address w0) sc w0) as Hfile.
    pose proof (preserves_scan_specific_device (same monitoring_start_time)
                  ltac:(done) ltac:(done) ltac:(done) ltac:(done)
                  (h5055_address w0) sc w0) as Hstart.
    unfold bind at 1.
    destruct (scan_specific_device_outcome (h5055_address w0) sc w0)
      as (r & w1 & Hscan & _ & Hr).
    rewrite Hscan in *. simpl in Hfile, Hstart.
    assert (r = Returns tt) as ->.
    { destruct (scan_error sc) as [[?|]|]; [by destruct Hr|done|done]. }
    destruct (snapshot_spec now w1) as (w2 & Hprint & Htd2 & Hfile2).
    unfold bind at 1. rewrite Hprint. exists w2. split.
    { unfold snapshot_outcome. rewrite Htd2. by destruct (decide _). }
    rewrite Hfile2, Htd2, Hfile. unfold snapshot_t_plus.
    rewrite Hstart. change (monitoring_start_time w0)
      with (monitoring_start_time (run_world st)). by rewrite Hs. }
  destruct (decide (no_null_reading (temp_data w'))) as [Hnn|Hnn]; simpl;
    intros Htd; rewrite Htd in Hfile, Hnn;
    rewrite ?decide_True, ?decide_False by done; done.
Qed.

(** The monitoring cycle of the run with a bystander. *)
Lemma X16_monitoring_iteration_witness :
  run_phase (run bystander_inputs (initial_state None)) = Monitoring
  ∧ csv_file (run_world (run bystander_inputs (initial_state None)))
    = Some [HeaderLine ["t_plus"; "device"; "probe_1"]%string;
            RowLine ["0:01:00"; "CC:DD"; "21.5"]%string;
            RowLine ["0:01:00"; "AA:BB"; "63.2"]%string].
Proof.
  destruct (X16_monitoring_iteration
    (run (take 1 bystander_inputs) (initial_state None))
    (ScanCompletes [target_advertisement]) 60000000 0
    eq_refl eq_refl ltac:(done)) as (Hph & _ & Hfile).
  split; (etrans; [eassumption|]); reflexivity.
Defined.



(** X17: the field names of a snapshot are pairwise different: no column
    name occurs twice, whatever the store. *)
Theorem X17_field_names_are_distinct (td : store) :
  NoDup (make_fieldnames td).
Proof.
  rewrite make_fieldnames_eq. apply NoDup_app. split; [|split].
  - apply NoDup_cons. split; [|apply NoDup_singleton].
    by intros ?%list_elem_of_singleton.
  - intros x Hx (p & -> & _)%list_elem_of_fmap.
    destruct (probe_column_not_fixed p) as [Ht Hd].
    apply elem_of_cons in Hx as [?|Hx]; [done|].
    apply elem_of_cons in Hx as [?|Hx]; [done|].
    by apply elem_of_nil in Hx.
  - apply NoDup_fmap; [apply _|apply NoDup_sorted_probe_ids].
Qed.
